(** * Battery charging action server (robot_actions/battery_charger.py)

    A shallow embedding of the [BatteryCharger] node: its constructor, the
    three callbacks the action server invokes ([goal_callback],
    [cancel_callback], [execute_callback]) and the charging loop.

    Numbers.  [current_battery] starts as the integer 20, [charge_rate] is the
    float 5.0 and every tick adds [charge_rate * 0.5].  Levels, rates and
    times are modelled as rationals [Q].  For the constructed server and a
    target that is a whole number of half percents, every level the loop
    computes is again such a number (lemma [half_grid_step]), and binary64
    represents and adds those exactly; the quotient [time_remaining] and the
    clock are the exact values that the floats approximate.  Python's
    [int(x)] is truncation toward zero, and [min(a, b)] is [a] unless
    [b < a].

    Environment.  The goal handle's [is_cancel_requested] is set from outside
    the loop; it is modelled by a script holding the answers of the future
    reads.  [time.time()] reads a clock that only [time.sleep] advances, so
    elapsed times are the ideal ones (no time is charged to computation). *)

From Stdlib Require Import QArith Qminmax Qround ZArith List Bool Lia Lqa.
Import ListNotations.

Local Open Scope Q_scope.

(** ** Numeric primitives *)

(** Python's [a < b] on numbers, as a boolean. *)
Definition Qltb (a b : Q) : bool :=
  match a ?= b with Lt => true | _ => false end.

(** Python's [a >= b]. *)
Definition Qgeb (a b : Q) : bool := negb (Qltb a b).

(** Python's [a > b]. *)
Definition Qgtb (a b : Q) : bool := Qltb b a.

(** Python's [int(x)] on a number: truncation toward zero. *)
Definition int (x : Q) : Z := Z.quot (Qnum x) (Zpos (Qden x)).

(** ** Messages of the ChargeBattery action and of the logger *)

Inductive GoalResponse := REJECT | ACCEPT.
Inductive CancelResponse := CANCEL_REJECT | CANCEL_ACCEPT.

(** ChargeBattery.Feedback *)
Record Feedback := mkFeedback {
  current_percentage : Z;
  time_remaining : Q;
  charging_rate : Q
}.

(** ChargeBattery.Result *)
Record Result := mkResult {
  success : bool;
  final_percentage : Z;
  charging_time : Q
}.

(** Terminal calls on the goal handle: [canceled()] and [succeed()]. *)
Inductive GoalStatus := EXECUTING | CANCELED | SUCCEEDED.

(** One constructor per logging statement of the source, with the values
    its f-string interpolates. *)
Inductive LogEntry :=
| Info_banner
| Info_ready
| Info_current_battery (level : Q)
| Info_charge_rate (rate : Q)
| Info_request_received (target : Q)
| Warn_invalid_target (target : Q)
| Warn_already_at (level target : Q)
| Info_goal_accepted
| Info_cancel_received
| Info_charging_started
| Info_charging_canceled
| Info_charging (percentage : Z) (remaining : Q)
| Info_charging_complete
| Info_final (percentage : Z)
| Info_time (seconds : Q).

(** ** The state the callbacks run in

    The node's two attributes and its logger output, the wall clock, the goal
    handle of the goal being executed (its state and the terminal calls made
    on it), and the local [feedback_msg] object of [execute_callback], which
    is allocated once and mutated every tick. *)
Record World := mkWorld {
  current_battery : Q;          (* self.current_battery *)
  charge_rate : Q;              (* self.charge_rate *)
  logger : list LogEntry;       (* self.get_logger(), oldest entry first *)
  clock : Q;                    (* what time.time() returns *)
  cancel_script : list bool;    (* future reads of is_cancel_requested *)
  status : GoalStatus;          (* goal_handle state *)
  published : list Feedback;    (* goal_handle.publish_feedback, oldest first *)
  feedback_msg : Feedback;      (* local object of execute_callback *)
  handle_calls : list GoalStatus (* canceled() and succeed() calls, in order *)
}.

Definition set_current_battery (v : Q) (w : World) : World :=
  mkWorld v (charge_rate w) (logger w) (clock w) (cancel_script w)
          (status w) (published w) (feedback_msg w) (handle_calls w).

Definition set_logger (l : list LogEntry) (w : World) : World :=
  mkWorld (current_battery w) (charge_rate w) l (clock w) (cancel_script w)
          (status w) (published w) (feedback_msg w) (handle_calls w).

Definition set_clock (t : Q) (w : World) : World :=
  mkWorld (current_battery w) (charge_rate w) (logger w) t (cancel_script w)
          (status w) (published w) (feedback_msg w) (handle_calls w).

Definition set_cancel_script (s : list bool) (w : World) : World :=
  mkWorld (current_battery w) (charge_rate w) (logger w) (clock w) s
          (status w) (published w) (feedback_msg w) (handle_calls w).

Definition set_status (s : GoalStatus) (w : World) : World :=
  mkWorld (current_battery w) (charge_rate w) (logger w) (clock w)
          (cancel_script w) s (published w) (feedback_msg w) (handle_calls w).

Definition set_published (p : list Feedback) (w : World) : World :=
  mkWorld (current_battery w) (charge_rate w) (logger w) (clock w)
          (cancel_script w) (status w) p (feedback_msg w) (handle_calls w).

Definition set_feedback_msg (f : Feedback) (w : World) : World :=
  mkWorld (current_battery w) (charge_rate w) (logger w) (clock w)
          (cancel_script w) (status w) (published w) f (handle_calls w).

Definition set_handle_calls (c : list GoalStatus) (w : World) : World :=
  mkWorld (current_battery w) (charge_rate w) (logger w) (clock w)
          (cancel_script w) (status w) (published w) (feedback_msg w) c.

(** Attribute assignments on the local [feedback_msg]. *)
Definition set_current_percentage (z : Z) (w : World) : World :=
  set_feedback_msg (mkFeedback z (time_remaining (feedback_msg w))
                               (charging_rate (feedback_msg w))) w.

Definition set_time_remaining (t : Q) (w : World) : World :=
  set_feedback_msg (mkFeedback (current_percentage (feedback_msg w)) t
                               (charging_rate (feedback_msg w))) w.

Definition set_charging_rate (r : Q) (w : World) : World :=
  set_feedback_msg (mkFeedback (current_percentage (feedback_msg w))
                               (time_remaining (feedback_msg w)) r) w.

(** ** A state and exception monad with fuel *)

Inductive exn := ZeroDivisionError.

Inductive outcome (A : Type) :=
| Done (a : A) (w : World)
| Raised (e : exn) (w : World)
| OutOfFuel.
Arguments Done {A} a w.
Arguments Raised {A} e w.
Arguments OutOfFuel {A}.

Definition M (A : Type) := World -> outcome A.

Definition ret {A} (a : A) : M A := fun w => Done a w.

Definition bind {A B} (c : M A) (k : A -> M B) : M B :=
  fun w => match c w with
           | Done a w' => k a w'
           | Raised e w' => Raised e w'
           | OutOfFuel => OutOfFuel
           end.

Definition raise {A} (e : exn) : M A := fun w => Raised e w.
Definition gets {A} (f : World -> A) : M A := fun w => Done (f w) w.
Definition modify (f : World -> World) : M unit := fun w => Done tt (f w).

Notation "x <- c ;; k" := (bind c (fun x => k))
  (at level 61, c at next level, right associativity).
Notation "c ;; k" := (bind c (fun _ => k))
  (at level 61, right associativity).

(** ** Primitive effects *)

Definition log (e : LogEntry) : M unit :=
  modify (fun w => set_logger (logger w ++ [e]) w).

(** [time.time()] *)
Definition time : M Q := gets clock.

(** [time.sleep(d)] *)
Definition sleep (d : Q) : M unit :=
  modify (fun w => set_clock (clock w + d) w).

(** [goal_handle.is_cancel_requested]: the next answer of the script; an
    exhausted script means no cancellation was requested. *)
Definition is_cancel_requested : M bool :=
  fun w => match cancel_script w with
           | [] => Done false w
           | b :: s => Done b (set_cancel_script s w)
           end.

(** [goal_handle.publish_feedback(msg)] sends the message's present
    contents. *)
Definition publish_feedback : M unit :=
  modify (fun w => set_published (published w ++ [feedback_msg w]) w).

(** [goal_handle.canceled()] *)
Definition canceled : M unit :=
  modify (fun w => set_handle_calls (handle_calls w ++ [CANCELED])
                                    (set_status CANCELED w)).

(** [goal_handle.succeed()] *)
Definition succeed : M unit :=
  modify (fun w => set_handle_calls (handle_calls w ++ [SUCCEEDED])
                                    (set_status SUCCEEDED w)).

(** Python's float division [a / b]. *)
Definition truediv (a b : Q) : M Q :=
  if Qeq_bool b 0 then raise ZeroDivisionError else ret (a / b).

(** ** The node *)

(** [BatteryCharger.__init__], started when the clock shows [t0]; no goal
    handle exists yet, so the handle part is empty. *)
Definition BatteryCharger_init (t0 : Q) : World :=
  let current_battery := 20 in
  let charge_rate := 5 in
  mkWorld current_battery charge_rate
          [Info_banner; Info_ready; Info_current_battery current_battery;
           Info_charge_rate charge_rate; Info_banner]
          t0 [] EXECUTING [] (mkFeedback 0 0 0) [].

(** [goal_callback(self, goal_request)] with
    [target = goal_request.target_percentage]. *)
Definition goal_callback (target : Q) : M GoalResponse :=
  log (Info_request_received target) ;;
  if Qltb target 0 || Qgtb target 100 then
    log (Warn_invalid_target target) ;;
    ret REJECT
  else
    battery <- gets current_battery ;;
    if Qgeb battery target then
      log (Warn_already_at battery target) ;;
      ret REJECT
    else
      log Info_goal_accepted ;;
      ret ACCEPT.

(** [cancel_callback(self, goal_handle)] *)
Definition cancel_callback : M CancelResponse :=
  log Info_cancel_received ;;
  ret CANCEL_ACCEPT.

(** The body of the [while] loop.  [Some r] is the [return result] of the
    cancellation branch, [None] is reaching the end of the body. *)
Definition loop_body (target start_time : Q) : M (option Result) :=
  cancel <- is_cancel_requested ;;
  if cancel then
    canceled ;;
    battery <- gets current_battery ;;
    now <- time ;;
    log Info_charging_canceled ;;
    ret (Some (mkResult false (int battery) (now - start_time)))
  else
    rate <- gets charge_rate ;;
    let charge_amount := rate * (1 # 2) in
    battery <- gets current_battery ;;
    modify (set_current_battery (Qmin (battery + charge_amount) target)) ;;
    battery <- gets current_battery ;;
    let remaining_percent := target - battery in
    time_remaining <- truediv remaining_percent rate ;;
    modify (set_current_percentage (int battery)) ;;
    modify (set_time_remaining time_remaining) ;;
    modify (set_charging_rate rate) ;;
    publish_feedback ;;
    shown <- gets (fun w => current_percentage (feedback_msg w)) ;;
    log (Info_charging shown time_remaining) ;;
    sleep (1 # 2) ;;
    ret None.

(** [while self.current_battery < target: ...].  [Some r]: the body
    returned [r]; [None]: the guard became false.  Each iteration costs one
    unit of fuel. *)
Fixpoint charging_loop (fuel : nat) (target start_time : Q)
  : M (option Result) :=
  fun w =>
    if Qltb (current_battery w) target then
      match fuel with
      | O => OutOfFuel
      | S fuel' =>
          match loop_body target start_time w with
          | Done (Some r) w' => Done (Some r) w'
          | Done None w' => charging_loop fuel' target start_time w'
          | Raised e w' => Raised e w'
          | OutOfFuel => OutOfFuel
          end
      end
    else Done None w.

(** [execute_callback(self, goal_handle)] with
    [target = goal_handle.request.target_percentage]. *)
Definition execute_callback (fuel : nat) (target : Q) : M Result :=
  log Info_charging_started ;;
  start_time <- time ;;
  modify (set_feedback_msg (mkFeedback 0 0 0)) ;;
  returned <- charging_loop fuel target start_time ;;
  match returned with
  | Some result => ret result
  | None =>
      succeed ;;
      now <- time ;;
      let total_time := now - start_time in
      battery <- gets current_battery ;;
      let result := mkResult true (int battery) total_time in
      log Info_banner ;;
      log Info_charging_complete ;;
      log (Info_final (final_percentage result)) ;;
      log (Info_time (charging_time result)) ;;
      log Info_banner ;;
      ret result
  end.

(** A goal handle for a new goal: nothing published, not terminal, no
    terminal call made, and the given answers to the cancellation reads. *)
Definition new_goal_handle (script : list bool) (w : World) : World :=
  set_handle_calls []
    (set_published [] (set_status EXECUTING (set_cancel_script script w))).

Definition run (fuel : nat) (target : Q) (script : list bool) (w : World)
  : outcome Result :=
  execute_callback fuel target (new_goal_handle script w).


(** The world in which [execute_callback] enters its loop. *)
Definition loop_entry (w : World) : World :=
  set_feedback_msg (mkFeedback 0 0 0)
    (set_logger (logger w ++ [Info_charging_started]) w).

(** What one completed tick leaves in [current_battery]. *)
Definition charged (target : Q) (w : World) : Q :=
  Qmin (current_battery w + charge_rate w * (1 # 2)) target.

(** The world at the end of a loop body that was not cancelled. *)
Definition after_tick (target : Q) (w : World) : World :=
  let level := charged target w in
  let eta := (target - level) / charge_rate w in
  let msg := mkFeedback (int level) eta (charge_rate w) in
  mkWorld level (charge_rate w)
          (logger w ++ [Info_charging (int level) eta])
          (clock w + (1 # 2)) (tl (cancel_script w)) (status w)
          (published w ++ [msg]) msg (handle_calls w).

(** The world in which the cancellation branch returns. *)
Definition after_cancel (w : World) : World :=
  set_logger (logger w ++ [Info_charging_canceled])
    (set_handle_calls (handle_calls w ++ [CANCELED])
       (set_status CANCELED (set_cancel_script (tl (cancel_script w)) w))).

(** One full pass through the loop: the guard held and the body reached its
    end. *)
Definition iteration (target start_time : Q) (w w' : World) : Prop :=
  Qltb (current_battery w) target = true /\
  loop_body target start_time w = Done None w'.

(** The worlds at the top of the loop, counted from the world [w0] in which
    the loop was entered. *)
Inductive in_loop (target start_time : Q) (w0 : World) : World -> Prop :=
| in_loop_entry : in_loop target start_time w0 w0
| in_loop_next w w' :
    in_loop target start_time w0 w ->
    iteration target start_time w w' ->
    in_loop target start_time w0 w'.

(** The worlds the server can be in between two callbacks.  The action
    server calls [goal_callback] on every request, [cancel_callback] on every
    cancel request, and [execute_callback] on a fresh goal handle once
    [goal_callback] has accepted the goal. *)
Inductive reachable : World -> Prop :=
| reach_init t0 : reachable (BatteryCharger_init t0)
| reach_goal w target resp w' :
    reachable w -> goal_callback target w = Done resp w' -> reachable w'
| reach_cancel w resp w' :
    reachable w -> cancel_callback w = Done resp w' -> reachable w'
| reach_execute w target w1 script fuel r w' :
    reachable w ->
    goal_callback target w = Done ACCEPT w1 ->
    run fuel target script w1 = Done r w' ->
    reachable w'
| reach_raise w target w1 script fuel e w' :
    reachable w ->
    goal_callback target w = Done ACCEPT w1 ->
    run fuel target script w1 = Raised e w' ->
    reachable w'
| reach_clock w d :
    reachable w -> 0 <= d -> reachable (set_clock (clock w + d) w).

(** A script that never answers that cancellation was requested. *)
Definition never_cancelled (script : list bool) : Prop :=
  Forall (fun b => b = false) script.

(** Levels that are a whole number of half percents. *)
Definition on_half_grid (q : Q) : Prop :=
  exists k : Z, q == inject_Z k * (1 # 2).

(** Non-decreasing integer sequences. *)
Inductive nondecreasing : list Z -> Prop :=
| nondec_nil : nondecreasing []
| nondec_one x : nondecreasing [x]
| nondec_cons x y l :
    (x <= y)%Z -> nondecreasing (y :: l) -> nondecreasing (x :: y :: l).

(** ** Scenario worlds and auxiliary measures *)

(** The world after the logger received [entries]. *)
Definition logged (entries : list LogEntry) (w : World) : World :=
  set_logger (logger w ++ entries) w.

(** The number of ticks that suffice from a given level. *)
Definition ticks_needed (target : Q) (w : World) : nat :=
  Z.to_nat (Qceiling ((target - current_battery w) / (charge_rate w * (1 # 2)))).

(** The server as constructed, after it has accepted the goal 100. *)
Definition accepted_100 : World :=
  logged [Info_request_received 100; Info_goal_accepted]
         (BatteryCharger_init 0).

(** The numbers a server with [charge_rate] 10 would produce from level 20:
    16 ticks of 5 up to 100 in 8 seconds, and 35 after three ticks.  No
    world of [reachable] has this rate (see [reachable_inv]). *)
Definition rate_10_world : World :=
  mkWorld 20 10 [] 0 [] EXECUTING [] (mkFeedback 0 0 0) [].

(** A world of [reachable] at level 50: the constructed server after it
    accepted and completed the goal 50. *)
Definition world_at_50 : World :=
  match run 12 50 []
            (logged [Info_request_received 50; Info_goal_accepted]
                    (BatteryCharger_init 0)) with
  | Done _ w => w
  | _ => BatteryCharger_init 0
  end.

(** [n] ticks of size [a] are what a gap [d] to the target needs: none for
    an empty gap, and otherwise [n - 1] ticks fall short and [n] suffice. *)
Definition tick_interval (n : nat) (d a : Q) : Prop :=
  match n with
  | O => d <= 0
  | S m => inject_Z (Z.of_nat m) * a < d /\
           d <= inject_Z (Z.of_nat (S m)) * a
  end.

(** A world whose [charge_rate] is 0, which the constructor never
    produces. *)
Definition rate_0_world : World :=
  mkWorld 20 0 [] 0 [] EXECUTING [] (mkFeedback 0 0 0) [].

(** What the published feedback of one execution may hold, given the level
    [level0] the execution started from. *)
Definition feedback_ok (level0 target rate : Q) (f : Feedback) : Prop :=
  charging_rate f = rate /\
  0 <= time_remaining f /\
  (int level0 <= current_percentage f <= int target)%Z.

(** [w2] is [w1] with another logger content. *)
Definition same_but_logger (w1 w2 : World) : Prop :=
  w2 = set_logger (logger w2) w1.

(** Two outcomes that agree on everything but the logger content. *)
Inductive outcome_sim {A : Type} : outcome A -> outcome A -> Prop :=
| sim_done a w1 w2 :
    same_but_logger w1 w2 -> outcome_sim (Done a w1) (Done a w2)
| sim_raised e w1 w2 :
    same_but_logger w1 w2 -> outcome_sim (Raised e w1) (Raised e w2)
| sim_out_of_fuel : outcome_sim OutOfFuel OutOfFuel.

(** * Properties *)

(** ** Comparisons and truncation *)

Lemma Qltb_true (a b : Q) : Qltb a b = true <-> a < b.
Proof.
  unfold Qltb. rewrite Qlt_alt.
  destruct (a ?= b); split; congruence.
Qed.

Lemma Qltb_false (a b : Q) : Qltb a b = false <-> b <= a.
Proof.
  unfold Qltb. rewrite Qle_alt, <- (Qcompare_antisym a b).
  destruct (a ?= b); simpl; split; congruence.
Qed.

Lemma Qgeb_true (a b : Q) : Qgeb a b = true <-> b <= a.
Proof.
  unfold Qgeb. rewrite negb_true_iff. apply Qltb_false.
Qed.

Lemma Qgeb_false (a b : Q) : Qgeb a b = false <-> a < b.
Proof.
  unfold Qgeb. rewrite negb_false_iff. apply Qltb_true.
Qed.

Lemma int_nonneg (x : Q) : 0 <= x -> int x = Qfloor x.
Proof.
  intros H. unfold int. destruct x as [n d]. simpl.
  apply Z.quot_div_nonneg; [|lia].
  unfold Qle in H. simpl in H. lia.
Qed.

Lemma int_neg (x : Q) : x <= 0 -> int x = (- Qfloor (- x))%Z.
Proof.
  intros H. unfold int. destruct x as [n d]. simpl.
  unfold Qle in H. simpl in H.
  replace n with (- - n)%Z at 1 by lia.
  rewrite Z.quot_opp_l by lia.
  f_equal. apply Z.quot_div_nonneg; lia.
Qed.

(** [int] is monotone on all numbers. *)
Lemma int_monotone (x y : Q) : x <= y -> (int x <= int y)%Z.
Proof.
  intros H.
  destruct (Qlt_le_dec x 0) as [Hx|Hx]; destruct (Qlt_le_dec y 0) as [Hy|Hy].
  - rewrite (int_neg x), (int_neg y) by lra.
    assert (Qfloor (- y) <= Qfloor (- x))%Z by (apply Qfloor_resp_le; lra).
    lia.
  - rewrite (int_neg x), (int_nonneg y) by lra.
    assert (0 <= Qfloor (- x))%Z by (apply (Qfloor_resp_le 0); lra).
    assert (0 <= Qfloor y)%Z by (apply (Qfloor_resp_le 0); lra).
    lia.
  - lra.
  - rewrite (int_nonneg x), (int_nonneg y) by lra.
    apply Qfloor_resp_le; assumption.
Qed.

Lemma Qmin_cases (x y : Q) : Qmin x y = x \/ Qmin x y = y.
Proof.
  unfold Qmin, GenericMinMax.gmin. destruct (x ?= y); auto.
Qed.

Lemma charged_le_target (target : Q) (w : World) : charged target w <= target.
Proof. apply Q.le_min_r. Qed.

Lemma charged_gt (target : Q) (w : World) :
  0 < charge_rate w -> current_battery w < target ->
  current_battery w < charged target w.
Proof.
  intros Hr Hb. unfold charged.
  destruct (Q.min_spec (current_battery w + charge_rate w * (1 # 2)) target)
    as [[_ ->]|[_ ->]]; lra.
Qed.

(** ** The loop body, case by case *)

(** Runs the primitive effects of a monadic term, leaving the arithmetic
    alone. *)
Ltac run_effects :=
  cbv [bind ret raise gets modify log time sleep publish_feedback truediv
       canceled succeed set_handle_calls
       charged set_current_battery set_logger set_clock set_cancel_script
       set_status set_published set_feedback_msg set_current_percentage
       set_time_remaining set_charging_rate];
  cbn [current_battery charge_rate logger clock cancel_script status
       published feedback_msg handle_calls current_percentage time_remaining
       charging_rate tl].

(** Runs the uncancelled loop body up to its division, one effect at a
    time. *)
Ltac to_division :=
  unfold bind at 1; unfold gets at 1;
  cbn [charge_rate set_cancel_script];
  unfold bind at 1; unfold gets at 1;
  unfold bind at 1; unfold modify at 1;
  unfold bind at 1; unfold gets at 1;
  unfold bind at 1; unfold truediv;
  cbn [charge_rate].

Lemma loop_body_cancelled (target start_time : Q) (w : World) :
  hd false (cancel_script w) = true ->
  loop_body target start_time w =
  Done (Some (mkResult false (int (current_battery w))
                       (clock w - start_time)))
       (after_cancel w).
Proof.
  intros H. unfold loop_body, bind, is_cancel_requested.
  destruct (cancel_script w) as [|b s] eqn:E; simpl in H; [discriminate|].
  subst b. unfold after_cancel. rewrite E. reflexivity.
Qed.

Lemma loop_body_tick (target start_time : Q) (w : World) :
  hd false (cancel_script w) = false ->
  Qeq_bool (charge_rate w) 0 = false ->
  loop_body target start_time w = Done None (after_tick target w).
Proof.
  intros H Hr. destruct w as [b r l c s st p f hc]. cbn in H, Hr.
  unfold loop_body, after_tick, charged.
  unfold bind at 1. unfold is_cancel_requested. cbn [cancel_script].
  destruct s as [|x s]; cbn in H; try subst x; to_division;
    rewrite Hr; reflexivity.
Qed.

Lemma loop_body_zero_rate (target start_time : Q) (w : World) :
  hd false (cancel_script w) = false ->
  Qeq_bool (charge_rate w) 0 = true ->
  exists w', loop_body target start_time w = Raised ZeroDivisionError w'.
Proof.
  intros H Hr. destruct w as [b r l c s st p f hc]. cbn in H, Hr.
  unfold loop_body.
  unfold bind at 1. unfold is_cancel_requested. cbn [cancel_script].
  destruct s as [|x s]; cbn in H; try subst x; to_division;
    rewrite Hr; eexists; reflexivity.
Qed.

Lemma iteration_inv (target start_time : Q) (w w' : World) :
  iteration target start_time w w' ->
  current_battery w < target /\
  hd false (cancel_script w) = false /\
  Qeq_bool (charge_rate w) 0 = false /\
  w' = after_tick target w.
Proof.
  intros [Hg Hb]. apply Qltb_true in Hg.
  destruct (hd false (cancel_script w)) eqn:Hc.
  - rewrite loop_body_cancelled in Hb by assumption. discriminate.
  - destruct (Qeq_bool (charge_rate w) 0) eqn:Hr.
    + destruct (loop_body_zero_rate target start_time w Hc Hr) as [w1 E].
      rewrite E in Hb. discriminate.
    + rewrite loop_body_tick in Hb by assumption.
      repeat split; congruence.
Qed.

Lemma rate_nonzero (r : Q) : 0 < r -> Qeq_bool r 0 = false.
Proof.
  intros H. destruct (Qeq_bool r 0) eqn:E; [|reflexivity].
  apply Qeq_bool_eq in E. lra.
Qed.

(** ** Unfolding the loop and the callback *)

Lemma charging_loop_exit (fuel : nat) (target start_time : Q) (w : World) :
  Qltb (current_battery w) target = false ->
  charging_loop fuel target start_time w = Done None w.
Proof. intros H. destruct fuel; simpl; rewrite H; reflexivity. Qed.

Lemma charging_loop_step (fuel : nat) (target start_time : Q) (w w' : World) :
  iteration target start_time w w' ->
  charging_loop (S fuel) target start_time w =
  charging_loop fuel target start_time w'.
Proof. intros [Hg Hb]. simpl. rewrite Hg, Hb. reflexivity. Qed.

Lemma charging_loop_return (fuel : nat) (target start_time : Q) (w : World) :
  current_battery w < target ->
  hd false (cancel_script w) = true ->
  charging_loop (S fuel) target start_time w =
  Done (Some (mkResult false (int (current_battery w))
                       (clock w - start_time)))
       (after_cancel w).
Proof.
  intros Hg Hc. apply Qltb_true in Hg. simpl.
  rewrite Hg, loop_body_cancelled by assumption. reflexivity.
Qed.

(** Running the loop from its entry passes through every world of
    [in_loop]. *)
Lemma in_loop_unroll (target start_time : Q) (w0 w : World) :
  in_loop target start_time w0 w ->
  exists n, forall fuel,
    charging_loop (n + fuel) target start_time w0 =
    charging_loop fuel target start_time w.
Proof.
  induction 1 as [|w w' _ [n IH] Hit].
  - exists O. reflexivity.
  - exists (S n). intros fuel.
    replace (S n + fuel)%nat with (n + S fuel)%nat by lia.
    rewrite IH. apply charging_loop_step. assumption.
Qed.

(** A loop that finished went through worlds of [in_loop], and finished
    either at a false guard or in the cancellation branch. *)
Lemma charging_loop_done (fuel : nat) (target start_time : Q) :
  forall w0 w x w',
    in_loop target start_time w0 w ->
    charging_loop fuel target start_time w = Done x w' ->
    exists wk,
      in_loop target start_time w0 wk /\
      ((x = None /\ w' = wk /\ target <= current_battery wk) \/
       (exists r, x = Some r /\ current_battery wk < target /\
                  hd false (cancel_script wk) = true /\
                  r = mkResult false (int (current_battery wk))
                               (clock wk - start_time) /\
                  w' = after_cancel wk)).
Proof.
  induction fuel as [|fuel IH]; intros w0 w x w' Hin Hrun; simpl in Hrun;
    destruct (Qltb (current_battery w) target) eqn:Hg; try discriminate.
  - inversion Hrun; subst. exists w'. split; [assumption|].
    left. apply Qltb_false in Hg. auto.
  - destruct (hd false (cancel_script w)) eqn:Hc.
    + rewrite loop_body_cancelled in Hrun by assumption.
      inversion Hrun; subst. exists w. split; [assumption|].
      right. eexists. apply Qltb_true in Hg. repeat split; auto.
    + destruct (loop_body target start_time w) as [[r|] w1|e w1|] eqn:Hb;
        try discriminate.
      * rewrite loop_body_tick in Hb; [discriminate|assumption|].
        destruct (Qeq_bool (charge_rate w) 0) eqn:Hr; [|reflexivity].
        destruct (loop_body_zero_rate target start_time w Hc Hr) as [w2 E].
        congruence.
      * apply (IH w0 w1 x w'); [|assumption].
        apply in_loop_next with w; [assumption|]. split; assumption.
  - inversion Hrun; subst. exists w'. split; [assumption|].
    left. apply Qltb_false in Hg. auto.
Qed.

Lemma execute_callback_unfold (fuel : nat) (target : Q) (w : World) :
  execute_callback fuel target w =
  match charging_loop fuel target (clock w) (loop_entry w) with
  | Done (Some r) w' => Done r w'
  | Done None w' =>
      let result :=
        mkResult true (int (current_battery w')) (clock w' - clock w) in
      Done result
        (set_logger (logger w' ++
           [Info_banner; Info_charging_complete;
            Info_final (final_percentage result);
            Info_time (charging_time result); Info_banner])
           (set_handle_calls (handle_calls w' ++ [SUCCEEDED])
              (set_status SUCCEEDED w')))
  | Raised e w' => Raised e w'
  | OutOfFuel => OutOfFuel
  end.
Proof.
  unfold execute_callback.
  unfold bind at 1. unfold log at 1, modify at 1.
  unfold bind at 1. unfold time at 1, gets at 1.
  unfold bind at 1. unfold modify at 1.
  unfold bind at 1. fold (loop_entry w).
  change (clock (set_logger (logger w ++ [Info_charging_started]) w))
    with (clock w).
  destruct (charging_loop fuel target (clock w) (loop_entry w))
    as [[r|] w'|e w'|]; try reflexivity.
  destruct w' as [b r l c s st p f hc].
  unfold bind, succeed, log, modify, time, gets, ret.
  cbn [current_battery charge_rate logger clock cancel_script status
       published feedback_msg handle_calls set_logger set_status
       set_handle_calls final_percentage charging_time].
  rewrite <- !(app_assoc l). reflexivity.
Qed.

(** ** Admission, case by case *)

Lemma goal_callback_cases (target : Q) (w : World) :
  ((target < 0 \/ 100 < target) /\
   goal_callback target w =
   Done REJECT
        (logged [Info_request_received target; Warn_invalid_target target] w))
  \/
  (0 <= target <= 100 /\ target <= current_battery w /\
   goal_callback target w =
   Done REJECT
        (logged [Info_request_received target;
                 Warn_already_at (current_battery w) target] w))
  \/
  (0 <= target <= 100 /\ current_battery w < target /\
   goal_callback target w =
   Done ACCEPT (logged [Info_request_received target; Info_goal_accepted] w)).
Proof.
  unfold goal_callback, logged. run_effects. unfold Qgtb.
  destruct (Qltb target 0) eqn:H0; cbn [orb].
  - left. apply Qltb_true in H0. split; [auto|].
    run_effects. rewrite <- (app_assoc (logger w)). reflexivity.
  - apply Qltb_false in H0.
    destruct (Qltb 100 target) eqn:H100.
    + left. apply Qltb_true in H100. split; [auto|].
      run_effects. rewrite <- (app_assoc (logger w)). reflexivity.
    + apply Qltb_false in H100. right. run_effects.
      destruct (Qgeb (current_battery w) target) eqn:Hb.
      * left. apply Qgeb_true in Hb. repeat split; auto.
        run_effects. rewrite <- (app_assoc (logger w)). reflexivity.
      * right. apply Qgeb_false in Hb. repeat split; auto.
        run_effects. rewrite <- (app_assoc (logger w)). reflexivity.
Qed.

Lemma goal_callback_accept_inv (target : Q) (w w1 : World) :
  goal_callback target w = Done ACCEPT w1 ->
  0 <= target <= 100 /\ current_battery w < target /\
  w1 = logged [Info_request_received target; Info_goal_accepted] w.
Proof.
  intros H.
  destruct (goal_callback_cases target w) as [[_ E]|[(_ & _ & E)|(Ht & Hb & E)]];
    rewrite E in H; try discriminate.
  inversion H. auto.
Qed.

(** ** What the loop preserves *)

Section LoopInvariants.
Variables target start_time : Q.
Variable w0 : World.
Hypothesis rate_positive : 0 < charge_rate w0.

Lemma in_loop_rate (w : World) :
  in_loop target start_time w0 w -> charge_rate w = charge_rate w0.
Proof.
  induction 1 as [|w w' _ IH Hit]; [reflexivity|].
  apply iteration_inv in Hit. destruct Hit as (_ & _ & _ & ->).
  exact IH.
Qed.

Lemma iteration_increases (w w' : World) :
  in_loop target start_time w0 w ->
  iteration target start_time w w' ->
  current_battery w < current_battery w' /\ current_battery w' <= target.
Proof.
  intros Hin Hit. apply iteration_inv in Hit.
  destruct Hit as (Hg & _ & _ & ->). cbn [after_tick current_battery].
  split; [|apply charged_le_target].
  apply charged_gt; [|assumption].
  rewrite (in_loop_rate w Hin). assumption.
Qed.

Lemma in_loop_battery_ge (w : World) :
  in_loop target start_time w0 w -> current_battery w0 <= current_battery w.
Proof.
  induction 1 as [|w w' Hin IH Hit]; [lra|].
  pose proof (iteration_increases w w' Hin Hit). lra.
Qed.

Lemma in_loop_battery_le (w : World) :
  current_battery w0 <= target ->
  in_loop target start_time w0 w -> current_battery w <= target.
Proof.
  intros H0. induction 1 as [|w w' Hin IH Hit]; [assumption|].
  pose proof (iteration_increases w w' Hin Hit). lra.
Qed.

(** Either no tick has completed, or the last published feedback shows the
    present level. *)
Lemma in_loop_last_feedback (w : World) :
  in_loop target start_time w0 w ->
  w = w0 \/
  exists p f, published w = p ++ [f] /\
              current_percentage f = int (current_battery w).
Proof.
  induction 1 as [|w w' Hin IH Hit]; [auto|]. right.
  apply iteration_inv in Hit. destruct Hit as (_ & _ & _ & ->).
  cbn [after_tick published current_battery].
  eexists. eexists. split; reflexivity.
Qed.
End LoopInvariants.

(** ** Non-decreasing sequences *)

Lemma nondecreasing_snoc (l : list Z) (x : Z) :
  nondecreasing l -> (forall y, In y l -> (y <= x)%Z) ->
  nondecreasing (l ++ [x]).
Proof.
  induction 1 as [|y|y z l Hyz Hl IH]; intros Hle; simpl.
  - constructor.
  - constructor; [|constructor]. apply Hle. simpl. auto.
  - constructor; [assumption|]. apply IH.
    intros y' Hy'. apply Hle. simpl in *. tauto.
Qed.

Lemma nondecreasing_nth (l : list Z) :
  nondecreasing l ->
  forall i j d, (i <= j < length l)%nat -> (nth i l d <= nth j l d)%Z.
Proof.
  induction 1 as [|x|x y l Hxy Hl IH]; intros i j d Hij; simpl in Hij.
  - lia.
  - assert (i = 0 /\ j = 0)%nat as [-> ->] by lia. lia.
  - destruct i as [|i], j as [|j]; try lia.
    + transitivity y; [assumption|].
      apply (IH 0%nat j d). simpl. lia.
    + apply (IH i j d). simpl. lia.
Qed.

(** ** Fuel, exceptions and termination of the loop *)

Lemma charging_loop_fuel_mono (target start_time : Q) :
  forall fuel fuel' w,
    (fuel <= fuel')%nat ->
    charging_loop fuel target start_time w <> OutOfFuel ->
    charging_loop fuel' target start_time w =
    charging_loop fuel target start_time w.
Proof.
  induction fuel as [|fuel IH]; intros fuel' w Hle Hrun.
  - simpl in *. destruct (Qltb (current_battery w) target) eqn:Hg;
      [congruence|]. apply charging_loop_exit. assumption.
  - destruct fuel' as [|fuel']; [lia|]. simpl in *.
    destruct (Qltb (current_battery w) target); [|reflexivity].
    destruct (loop_body target start_time w) as [[r|] w1|e w1|];
      try reflexivity.
    apply IH; [lia|assumption].
Qed.

Lemma charging_loop_no_raise (target start_time : Q) :
  forall fuel w e w',
    Qeq_bool (charge_rate w) 0 = false ->
    charging_loop fuel target start_time w <> Raised e w'.
Proof.
  induction fuel as [|fuel IH]; intros w e w' Hr; simpl;
    destruct (Qltb (current_battery w) target); try discriminate.
  destruct (hd false (cancel_script w)) eqn:Hc.
  - rewrite loop_body_cancelled by assumption. discriminate.
  - rewrite loop_body_tick by assumption. apply IH. exact Hr.
Qed.

Lemma never_cancelled_hd (s : list bool) :
  never_cancelled s -> hd false s = false /\ never_cancelled (tl s).
Proof.
  intros H. destruct H as [|b s Hb Hs]; simpl.
  - split; [reflexivity|constructor].
  - split; assumption.
Qed.

Lemma charging_loop_terminates (target start_time : Q) :
  forall n fuel w,
    (n <= fuel)%nat ->
    0 < charge_rate w ->
    never_cancelled (cancel_script w) ->
    target - current_battery w
      <= inject_Z (Z.of_nat n) * (charge_rate w * (1 # 2)) ->
    exists w', charging_loop fuel target start_time w = Done None w'.
Proof.
  induction n as [|n IH]; intros fuel w Hfuel Hr Hs Hn.
  - exists w. apply charging_loop_exit, Qltb_false.
    change (inject_Z (Z.of_nat 0)) with 0 in Hn. lra.
  - destruct (Qltb (current_battery w) target) eqn:Hg.
    + destruct fuel as [|fuel]; [lia|].
      destruct (never_cancelled_hd _ Hs) as [Hc Hs'].
      pose proof (rate_nonzero _ Hr) as Hr0.
      rewrite (charging_loop_step fuel target start_time w (after_tick target w))
        by (split; [assumption|apply loop_body_tick; assumption]).
      apply IH; cbn [after_tick charge_rate cancel_script current_battery];
        [lia|assumption|assumption|].
      rewrite Nat2Z.inj_succ in Hn. unfold Z.succ in Hn.
      rewrite inject_Z_plus in Hn.
      change (inject_Z 1) with 1 in Hn.
      assert (0 <= inject_Z (Z.of_nat n)) as Hk
        by (rewrite <- (Zle_Qle 0); lia).
      set (k := inject_Z (Z.of_nat n)) in *.
      set (a := charge_rate w * (1 # 2)) in *.
      assert (0 <= k * a) as Hka by (apply Qmult_le_0_compat; unfold a; lra).
      assert ((k + 1) * a == k * a + a) as E by ring.
      rewrite E in Hn. unfold charged. fold a.
      destruct (Q.min_spec (current_battery w + a) target)
        as [[_ ->]|[_ ->]]; lra.
    + exists w. apply charging_loop_exit. assumption.
Qed.

Lemma ticks_needed_enough (target : Q) (w : World) :
  0 < charge_rate w ->
  target - current_battery w
    <= inject_Z (Z.of_nat (ticks_needed target w)) * (charge_rate w * (1 # 2)).
Proof.
  intros Hr. unfold ticks_needed.
  set (a := charge_rate w * (1 # 2)).
  set (d := target - current_battery w).
  assert (0 < a) as Ha by (unfold a; lra).
  assert (d == d / a * a) as E by (field; lra).
  rewrite E at 1.
  apply Qmult_le_compat_r; [|lra].
  apply Qle_trans with (inject_Z (Qceiling (d / a))); [apply Qle_ceiling|].
  rewrite <- Zle_Qle. lia.
Qed.

(** ** What a finished execution went through *)

Lemma run_done_inv (fuel : nat) (target : Q) (script : list bool)
      (w : World) (r : Result) (w' : World) :
  run fuel target script w = Done r w' ->
  exists wk,
    in_loop target (clock w) (loop_entry (new_goal_handle script w)) wk /\
    charge_rate w' = charge_rate wk /\
    current_battery w' = current_battery wk /\
    published w' = published wk /\
    clock w' = clock wk /\
    final_percentage r = int (current_battery wk) /\
    charging_time r = clock wk - clock w /\
    ((success r = true /\ target <= current_battery wk /\
      status w' = SUCCEEDED) \/
     (success r = false /\ current_battery wk < target /\
      hd false (cancel_script wk) = true /\ status w' = CANCELED)).
Proof.
  unfold run. rewrite execute_callback_unfold.
  change (clock (new_goal_handle script w)) with (clock w).
  destruct (charging_loop fuel target (clock w) _) as [x w1|e w1|] eqn:Hrun;
    try discriminate.
  apply (charging_loop_done fuel target (clock w) _ _ x w1 (in_loop_entry _ _ _))
    in Hrun.
  destruct Hrun as (wk & Hin & [(-> & -> & Hg)|(r0 & -> & Hg & Hc & -> & ->)]);
    intros H; inversion H; subst; clear H; exists wk;
    (split; [exact Hin|]); cbn; repeat split; auto.
Qed.

Lemma run_fuel_mono (fuel fuel' : nat) (target : Q) (script : list bool)
      (w : World) (r : Result) (w' : World) :
  (fuel <= fuel')%nat ->
  run fuel target script w = Done r w' ->
  run fuel' target script w = Done r w'.
Proof.
  unfold run. intros Hle. rewrite !execute_callback_unfold.
  intros H.
  rewrite (charging_loop_fuel_mono _ _ fuel fuel'); [exact H|exact Hle|].
  intros E. rewrite E in H. discriminate.
Qed.

Lemma run_no_raise (fuel : nat) (target : Q) (script : list bool)
      (w : World) (e : exn) (w' : World) :
  Qeq_bool (charge_rate w) 0 = false ->
  run fuel target script w <> Raised e w'.
Proof.
  intros Hr. unfold run. rewrite execute_callback_unfold.
  destruct (charging_loop fuel target _ _) as [[r|] w1|e1 w1|] eqn:Hrun;
    try discriminate.
  exfalso. revert Hrun. apply charging_loop_no_raise. exact Hr.
Qed.

(** ** What every reachable world satisfies *)

Lemma reachable_inv (w : World) :
  reachable w ->
  charge_rate w = 5 /\ 20 <= current_battery w /\ current_battery w <= 100.
Proof.
  induction 1 as [t0|w target resp w' _ IH Hg|w resp w' _ IH Hc
                  |w target w1 script fuel r w' _ IH Hg Hrun
                  |w target w1 script fuel e w' _ IH Hg Hrun
                  |w d _ IH Hd].
  - cbn. repeat split; lra.
  - destruct (goal_callback_cases target w)
      as [[_ E]|[(_ & _ & E)|(_ & _ & E)]];
      rewrite E in Hg; inversion Hg; subst; exact IH.
  - inversion Hc; subst. exact IH.
  - apply goal_callback_accept_inv in Hg. destruct Hg as (Ht & Hb & ->).
    destruct IH as (Hr & Hlo & Hhi).
    apply run_done_inv in Hrun.
    destruct Hrun as (wk & Hin & -> & -> & _).
    assert (0 < charge_rate
                  (loop_entry (new_goal_handle script
                     (logged [Info_request_received target;
                              Info_goal_accepted] w)))) as Hpos
      by (cbn; rewrite Hr; lra).
    split; [|split].
    + rewrite (in_loop_rate _ _ _ _ Hin). exact Hr.
    + pose proof (in_loop_battery_ge _ _ _ Hpos _ Hin) as H. cbn in H. lra.
    + assert (current_battery wk <= target); [|lra].
      apply (in_loop_battery_le _ _ _ Hpos _ (Qlt_le_weak _ _ Hb) Hin).
  - exfalso. apply goal_callback_accept_inv in Hg. destruct Hg as (_ & _ & ->).
    revert Hrun. apply run_no_raise. cbn. destruct IH as (-> & _).
    reflexivity.
  - exact IH.
Qed.

(** ** Feedback published during one execution *)

Lemma in_loop_feedback_sorted (target start_time : Q) (w0 w : World) :
  0 < charge_rate w0 ->
  published w0 = [] ->
  in_loop target start_time w0 w ->
  nondecreasing (map current_percentage (published w)) /\
  forall y, In y (map current_percentage (published w)) ->
            (y <= int (current_battery w))%Z.
Proof.
  intros Hr Hp. induction 1 as [|w w' Hin [IHs IHb] Hit].
  - rewrite Hp. simpl. split; [constructor|tauto].
  - pose proof (iteration_increases _ _ _ Hr _ _ Hin Hit) as [Hlt _].
    apply iteration_inv in Hit. destruct Hit as (_ & _ & _ & ->).
    cbn [after_tick published current_battery] in *.
    assert (int (current_battery w) <= int (charged target w))%Z as Hi
      by (apply int_monotone; lra).
    rewrite map_app. cbn [map current_percentage]. split.
    + apply nondecreasing_snoc; [assumption|].
      intros y Hy. specialize (IHb y Hy). lia.
    + intros y Hy. apply in_app_or in Hy. destruct Hy as [Hy|[<-|[]]].
      * specialize (IHb y Hy). lia.
      * lia.
Qed.

(** A multiple of one half stays one when the constructed server charges
    toward a target on the same grid: the additions the loop performs are
    exact in binary floating point. *)
Lemma half_grid_step (target : Q) (w : World) :
  charge_rate w = 5 ->
  on_half_grid (current_battery w) -> on_half_grid target ->
  on_half_grid (charged target w).
Proof.
  intros Hr [k Hk] Ht. unfold charged.
  destruct (Qmin_cases (current_battery w + charge_rate w * (1 # 2)) target)
    as [-> | ->]; [|assumption].
  exists (k + 5)%Z. rewrite Hr, Hk, inject_Z_plus.
  change (inject_Z 5) with 5. ring.
Qed.

(** ** Truncation, the clock and the last feedback *)

Lemma int_proper (x y : Q) : x == y -> int x = int y.
Proof.
  intros H. apply Z.le_antisymm; apply int_monotone; lra.
Qed.

Lemma int_inject_Z (z : Z) : int (inject_Z z) = z.
Proof. unfold int, inject_Z. simpl. apply Z.quot_1_r. Qed.

Lemma inject_Z_succ (n : nat) :
  inject_Z (Z.of_nat (S n)) == inject_Z (Z.of_nat n) + 1.
Proof.
  rewrite Nat2Z.inj_succ. unfold Z.succ. rewrite inject_Z_plus. reflexivity.
Qed.

Lemma inject_Z_nat_nonneg (n : nat) : 0 <= inject_Z (Z.of_nat n).
Proof. rewrite <- (Zle_Qle 0). lia. Qed.

(** The clock inside an execution: half a second per published feedback. *)
Lemma in_loop_clock (target start_time : Q) (w0 w : World) :
  published w0 = [] ->
  in_loop target start_time w0 w ->
  clock w == clock w0 + inject_Z (Z.of_nat (length (published w))) * (1 # 2).
Proof.
  intros Hp. induction 1 as [|w w' Hin IH Hit].
  - rewrite Hp. simpl. change (inject_Z 0) with 0. ring.
  - apply iteration_inv in Hit. destruct Hit as (_ & _ & _ & ->).
    cbn [after_tick clock published].
    rewrite length_app, Nat.add_comm. cbn [length Nat.add].
    rewrite inject_Z_succ, IH. ring.
Qed.

(** The feedback object at the top of the loop, once a tick has
    completed. *)
Lemma in_loop_last_message (target start_time : Q) (w0 w : World) :
  in_loop target start_time w0 w ->
  w = w0 \/
  exists p, published w =
            p ++ [mkFeedback (int (current_battery w))
                             ((target - current_battery w) / charge_rate w)
                             (charge_rate w)].
Proof.
  induction 1 as [|w w' Hin IH Hit]; [auto|]. right.
  apply iteration_inv in Hit. destruct Hit as (_ & _ & _ & ->).
  cbn [after_tick published current_battery charge_rate].
  eexists. reflexivity.
Qed.

Lemma in_loop_feedback_content (target start_time : Q) (w0 w : World) :
  0 < charge_rate w0 ->
  published w0 = [] ->
  in_loop target start_time w0 w ->
  Forall (feedback_ok (current_battery w0) target (charge_rate w0))
         (published w).
Proof.
  intros Hr Hp. induction 1 as [|w w' Hin IH Hit].
  - rewrite Hp. constructor.
  - pose proof (iteration_increases _ _ _ Hr _ _ Hin Hit) as [Hlt Hle].
    pose proof (in_loop_battery_ge _ _ _ Hr _ Hin) as Hge.
    pose proof (in_loop_rate _ _ _ _ Hin) as Hrate.
    apply iteration_inv in Hit. destruct Hit as (_ & _ & _ & ->).
    cbn [after_tick published current_battery] in *.
    apply Forall_app. split; [exact IH|].
    constructor; [|constructor].
    unfold feedback_ok. cbn [charging_rate time_remaining current_percentage].
    split; [exact Hrate|]. split.
    + unfold Qdiv. apply Qmult_le_0_compat; [lra|].
      apply Qinv_le_0_compat. rewrite Hrate. lra.
    + split; apply int_monotone; lra.
Qed.

(** ** The exact number of ticks *)

Lemma ticks_needed_interval (target : Q) (w : World) :
  0 < charge_rate w ->
  tick_interval (ticks_needed target w) (target - current_battery w)
                (charge_rate w * (1 # 2)).
Proof.
  intros Hr. unfold ticks_needed.
  set (a := charge_rate w * (1 # 2)).
  set (d := target - current_battery w).
  assert (0 < a) as Ha by (unfold a; lra).
  assert (d == d / a * a) as E by (field; lra).
  pose proof (Qle_ceiling (d / a)) as Hup.
  pose proof (Qceiling_lt (d / a)) as Hlo.
  set (c := Qceiling (d / a)) in *.
  destruct (Z.to_nat c) as [|m] eqn:Hc; cbn [tick_interval].
  - assert (inject_Z c <= 0) as Hc0 by (change (inject_Z c <= inject_Z 0); rewrite <- Zle_Qle; lia).
    rewrite E. setoid_replace 0 with (0 * a) by ring.
    apply Qmult_le_compat_r; lra.
  - assert (Z.of_nat m = c - 1)%Z as Hm by lia.
    assert (Z.of_nat (S m) = c) as HSm by lia.
    rewrite Hm, HSm. split.
    + rewrite E. apply Qmult_lt_compat_r; assumption.
    + rewrite E at 1. apply Qmult_le_compat_r; lra.
Qed.

Lemma charging_loop_exact (target start_time : Q) :
  forall n fuel w,
    (n <= fuel)%nat ->
    0 < charge_rate w ->
    never_cancelled (cancel_script w) ->
    tick_interval n (target - current_battery w) (charge_rate w * (1 # 2)) ->
    exists w',
      charging_loop fuel target start_time w = Done None w' /\
      length (published w') = (length (published w) + n)%nat.
Proof.
  induction n as [|n IH]; intros fuel w Hfuel Hr Hs Hn; cbn [tick_interval] in Hn.
  - exists w. split; [|lia]. apply charging_loop_exit, Qltb_false. lra.
  - destruct Hn as [Hlo Hhi].
    pose proof (inject_Z_nat_nonneg n) as Hk.
    rewrite inject_Z_succ in Hhi.
    set (k := inject_Z (Z.of_nat n)) in *.
    set (a := charge_rate w * (1 # 2)) in *.
    assert (0 < a) as Ha by (unfold a; lra).
    assert (0 <= k * a) as Hka by (apply Qmult_le_0_compat; lra).
    assert ((k + 1) * a == k * a + a) as E by ring.
    rewrite E in Hhi.
    destruct fuel as [|fuel]; [lia|].
    destruct (never_cancelled_hd _ Hs) as [Hc Hs'].
    rewrite (charging_loop_step fuel target start_time w (after_tick target w))
      by (split; [apply Qltb_true; lra
                 |apply loop_body_tick; [assumption|apply rate_nonzero; exact Hr]]).
    destruct (IH fuel (after_tick target w)) as (w' & Hrun & Hlen);
      cbn [after_tick charge_rate cancel_script current_battery published];
      [lia|assumption|assumption| |].
    + unfold charged. fold a.
      destruct (Q.min_spec (current_battery w + a) target)
        as [[Hmin Heq]|[Hmin Heq]];
        set (level := Qmin (current_battery w + a) target) in *;
        destruct n as [|m]; cbn [tick_interval].
      * exfalso. change (inject_Z (Z.of_nat 0)) with 0 in k.
        unfold k in *. lra.
      * unfold k in *. clear k.
        pose proof (inject_Z_succ m) as Em.
        set (j := inject_Z (Z.of_nat m)) in *.
        set (k := inject_Z (Z.of_nat (S m))) in *.
        assert (k * a == j * a + a) as E2 by (rewrite Em; ring).
        split; lra.
      * lra.
      * exfalso. unfold k in *. clear k.
        pose proof (inject_Z_succ m) as Em.
        pose proof (inject_Z_nat_nonneg m) as Hj.
        set (j := inject_Z (Z.of_nat m)) in *.
        set (k := inject_Z (Z.of_nat (S m))) in *.
        assert (k * a == j * a + a) as E2 by (rewrite Em; ring).
        assert (0 <= j * a) by (apply Qmult_le_0_compat; lra).
        lra.
    + exists w'. split; [exact Hrun|].
      cbn [after_tick published] in Hlen. rewrite length_app in Hlen.
      cbn [length] in Hlen. lia.
Qed.

(** ** Levels at a rate of 10 from level 20 *)

(** From level 20 toward 100 at rate 10, [k] completed ticks leave the level
    at [20 + 5 k], and there are at most 16 of them. *)
Lemma rate_10_levels (start_time : Q) (w0 w : World) :
  current_battery w0 == 20 ->
  charge_rate w0 == 10 ->
  published w0 = [] ->
  in_loop 100 start_time w0 w ->
  current_battery w ==
    20 + 5 * inject_Z (Z.of_nat (length (published w))) /\
  (length (published w) <= 16)%nat.
Proof.
  intros Hb Hr Hp. induction 1 as [|w w' Hin [IHl IHn] Hit].
  - rewrite Hp. cbn [length]. change (inject_Z (Z.of_nat 0)) with 0.
    split; [lra|lia].
  - pose proof (in_loop_rate _ _ _ _ Hin) as Hrate.
    apply iteration_inv in Hit. destruct Hit as (Hg & _ & _ & ->).
    cbn [after_tick current_battery published].
    rewrite length_app, Nat.add_comm. cbn [length Nat.add].
    set (k := length (published w)) in *.
    assert (inject_Z (Z.of_nat k) < inject_Z 16) as Hk
      by (change (inject_Z 16) with 16; lra).
    rewrite <- Zlt_Qlt in Hk.
    assert (inject_Z (Z.of_nat (S k)) <= inject_Z 16) as Hk'
      by (rewrite <- Zle_Qle; lia).
    change (inject_Z 16) with 16 in Hk'.
    rewrite inject_Z_succ in Hk' |- *.
    split; [|lia]. unfold charged. rewrite Hrate.
    destruct (Q.min_spec (current_battery w + charge_rate w0 * (1 # 2)) 100)
      as [[Hmin ->]|[Hmin ->]]; lra.
Qed.

(** ** The scenarios, computed *)

Lemma accepted_100_ok :
  goal_callback 100 (BatteryCharger_init 0) = Done ACCEPT accepted_100.
Proof. reflexivity. Qed.

Lemma full_charge_run :
  exists r w',
    run 32 100 [] accepted_100 = Done r w' /\
    success r = true /\
    final_percentage r = 100%Z /\
    charging_time r == 16 /\
    current_battery w' == 100 /\
    map current_percentage (published w') =
      [22; 25; 27; 30; 32; 35; 37; 40; 42; 45; 47; 50; 52; 55; 57; 60;
       62; 65; 67; 70; 72; 75; 77; 80; 82; 85; 87; 90; 92; 95; 97; 100]%Z.
Proof.
  eexists. eexists. split; [vm_compute; reflexivity|].
  repeat split; vm_compute; reflexivity.
Qed.

Lemma cancelled_run :
  exists r w',
    run 4 100 [false; false; false; true] accepted_100 = Done r w' /\
    success r = false /\
    final_percentage r = 27%Z /\
    charging_time r == 3 # 2 /\
    current_battery w' == 55 # 2 /\
    status w' = CANCELED /\
    map current_percentage (published w') = [22; 25; 27]%Z.
Proof.
  eexists. eexists. split; [vm_compute; reflexivity|].
  repeat split; vm_compute; reflexivity.
Qed.

Lemma rate_10_full_charge :
  exists r w',
    run 16 100 [] rate_10_world = Done r w' /\
    success r = true /\ final_percentage r = 100%Z /\
    charging_time r == 8 /\ length (published w') = 16%nat.
Proof.
  eexists. eexists. split; [vm_compute; reflexivity|].
  repeat split; vm_compute; reflexivity.
Qed.

Lemma rate_10_cancelled :
  exists r w',
    run 4 100 [false; false; false; true] rate_10_world = Done r w' /\
    success r = false /\ final_percentage r = 35%Z /\
    charging_time r == 3 # 2.
Proof.
  eexists. eexists. split; [vm_compute; reflexivity|].
  repeat split; vm_compute; reflexivity.
Qed.

(** With a positive rate the loop returns whatever the cancellation reads
    are: each pass either returns or brings the level a tick closer. *)
Lemma charging_loop_returns (target start_time : Q) :
  forall n fuel w,
    (n <= fuel)%nat ->
    0 < charge_rate w ->
    target - current_battery w
      <= inject_Z (Z.of_nat n) * (charge_rate w * (1 # 2)) ->
    exists x w', charging_loop fuel target start_time w = Done x w'.
Proof.
  induction n as [|n IH]; intros fuel w Hfuel Hr Hn.
  - exists None, w. apply charging_loop_exit, Qltb_false.
    change (inject_Z (Z.of_nat 0)) with 0 in Hn. lra.
  - destruct (Qltb (current_battery w) target) eqn:Hg;
      [|exists None, w; apply charging_loop_exit; assumption].
    destruct fuel as [|fuel]; [lia|].
    destruct (hd false (cancel_script w)) eqn:Hc.
    + eexists. eexists. apply charging_loop_return; [|exact Hc].
      apply Qltb_true. exact Hg.
    + rewrite (charging_loop_step fuel target start_time w (after_tick target w))
        by (split; [assumption
                   |apply loop_body_tick; [assumption|apply rate_nonzero; exact Hr]]).
      apply IH; cbn [after_tick charge_rate current_battery];
        [lia|assumption|].
      rewrite Nat2Z.inj_succ in Hn. unfold Z.succ in Hn.
      rewrite inject_Z_plus in Hn.
      change (inject_Z 1) with 1 in Hn.
      assert (0 <= inject_Z (Z.of_nat n)) as Hk
        by (rewrite <- (Zle_Qle 0); lia).
      set (k := inject_Z (Z.of_nat n)) in *.
      set (a := charge_rate w * (1 # 2)) in *.
      assert (0 <= k * a) as Hka by (apply Qmult_le_0_compat; unfold a; lra).
      assert ((k + 1) * a == k * a + a) as E by ring.
      rewrite E in Hn. unfold charged. fold a.
      destruct (Q.min_spec (current_battery w + a) target)
        as [[_ ->]|[_ ->]]; lra.
Qed.

(** ** The scenarios on the constructed server *)

(** The constructed server has rate 5, not 10: from level 20 its accepted
    goal 100 finishes neither after 16 ticks nor after 8 seconds. *)
Lemma full_charge_not_16_ticks :
  ~ (exists fuel r w',
       run fuel 100 [] accepted_100 = Done r w' /\
       (length (published w') = 16%nat \/ charging_time r == 8)).
Proof.
  intros (fuel & r & w' & Hrun & H).
  destruct full_charge_run as (r0 & w0 & Hrun0 & _ & _ & Ht & _ & Hfb).
  apply (run_fuel_mono fuel (Nat.max fuel 32)) in Hrun; [|lia].
  apply (run_fuel_mono 32 (Nat.max fuel 32)) in Hrun0; [|lia].
  rewrite Hrun in Hrun0. inversion Hrun0; subst.
  destruct H as [Hlen|H8].
  - apply (f_equal (@length Z)) in Hfb. rewrite length_map in Hfb.
    rewrite Hlen in Hfb. discriminate.
  - rewrite H8 in Ht. discriminate.
Qed.

(** On the constructed server (level 20, rate 5 per second, tick 0.5 s) the
    accepted goal 100 gains 2.5 per tick, needs exactly 32 ticks, and
    terminates with success, final level 100 and 16 seconds elapsed. *)
Lemma full_charge_scenario :
  exists w1 r w',
    goal_callback 100 (BatteryCharger_init 0) = Done ACCEPT w1 /\
    charge_rate w1 * (1 # 2) == 5 # 2 /\
    run 31 100 [] w1 = OutOfFuel /\
    (forall fuel, (32 <= fuel)%nat -> run fuel 100 [] w1 = Done r w') /\
    success r = true /\
    final_percentage r = 100%Z /\
    charging_time r == 16 /\
    current_battery w' == 100 /\
    status w' = SUCCEEDED /\
    map current_percentage (published w') =
      [22; 25; 27; 30; 32; 35; 37; 40; 42; 45; 47; 50; 52; 55; 57; 60;
       62; 65; 67; 70; 72; 75; 77; 80; 82; 85; 87; 90; 92; 95; 97; 100]%Z.
Proof.
  destruct full_charge_run as (r & w' & Hrun & Hs & Hf & Ht & Hb & Hfb).
  exists accepted_100, r, w'.
  split; [reflexivity|]. split; [reflexivity|].
  split; [vm_compute; reflexivity|].
  split; [intros fuel Hfuel; apply (run_fuel_mono 32); assumption|].
  repeat split; try assumption.
  apply run_done_inv in Hrun.
  destruct Hrun as (_ & _ & _ & _ & _ & _ & _ & _ & [(_ & _ & H)|(H & _)]);
    [exact H|congruence].
Qed.

Lemma full_charge_scenario_witness :
  exists w1 r w',
    goal_callback 100 (BatteryCharger_init 0) = Done ACCEPT w1 /\
    run 32 100 [] w1 = Done r w' /\ final_percentage r = 100%Z.
Proof.
  destruct full_charge_scenario
    as (w1 & r & w' & Hacc & _ & _ & Hrun & _ & Hf & _).
  exists w1, r, w'. split; [exact Hacc|].
  split; [apply Hrun; apply le_n|exact Hf].
Defined.

(** On the constructed server, whose ticks add 2.5, a cancellation observed
    after three completed ticks does not give final level 35. *)
Lemma cancel_after_3_not_35 :
  ~ (exists fuel r w',
       run fuel 100 [false; false; false; true] accepted_100 = Done r w' /\
       final_percentage r = 35%Z).
Proof.
  intros (fuel & r & w' & Hrun & Hf).
  destruct cancelled_run as (r0 & w0 & Hrun0 & _ & Hf0 & _).
  apply (run_fuel_mono fuel (Nat.max fuel 4)) in Hrun; [|lia].
  apply (run_fuel_mono 4 (Nat.max fuel 4)) in Hrun0; [|lia].
  rewrite Hrun in Hrun0. inversion Hrun0; subst.
  rewrite Hf in Hf0. discriminate.
Qed.

(** On the constructed server (level 20, 2.5 per tick) with goal 100, a
    cancellation observed after three completed ticks ends the goal with
    [success = false], final level 27 (the state is 27.5, which [int]
    truncates) and 1.5 seconds elapsed. *)
Lemma cancel_after_3_scenario :
  exists w1 r w',
    goal_callback 100 (BatteryCharger_init 0) = Done ACCEPT w1 /\
    (forall fuel, (4 <= fuel)%nat ->
       run fuel 100 [false; false; false; true] w1 = Done r w') /\
    success r = false /\
    final_percentage r = 27%Z /\
    charging_time r == 3 # 2 /\
    current_battery w' == 55 # 2 /\
    status w' = CANCELED /\
    map current_percentage (published w') = [22; 25; 27]%Z.
Proof.
  destruct cancelled_run as (r & w' & Hrun & H).
  exists accepted_100, r, w'.
  split; [reflexivity|].
  split; [intros fuel Hfuel; apply (run_fuel_mono 4); assumption|exact H].
Qed.

Lemma cancel_after_3_scenario_witness :
  exists w1 r w',
    goal_callback 100 (BatteryCharger_init 0) = Done ACCEPT w1 /\
    run 4 100 [false; false; false; true] w1 = Done r w' /\
    final_percentage r = 27%Z.
Proof.
  destruct cancel_after_3_scenario as (w1 & r & w' & Hacc & Hrun & _ & Hf & _).
  exists w1, r, w'. split; [exact Hacc|].
  split; [apply Hrun; apply le_n|exact Hf].
Defined.

(** * The claims *)

(** C1.  For every accepted goal, at every top of the execution loop the
    charge state is at most the target; every completed iteration strictly
    increases it and leaves it at most the target (the update is
    [min(current + increment, target)]); an iteration is taken as long as
    the state is below the target and no cancellation is observed; and when
    the loop guard fails the state equals the target.  These tops of the
    loop are the worlds [charging_loop] passes through, and
    [execute_callback] goes on from each of them to return: its final level
    is reached from there by further iterations, lies between the level at
    admission and the target, and on success is above the former and equal
    to the latter. *)
Theorem charge_state_increases_to_target
        (w : World) (target : Q) (w1 : World) (script : list bool)
        (wk : World) :
  reachable w ->
  goal_callback target w = Done ACCEPT w1 ->
  in_loop target (clock w1) (loop_entry (new_goal_handle script w1)) wk ->
  current_battery wk <= target /\
  (forall wk', iteration target (clock w1) wk wk' ->
     current_battery wk < current_battery wk' /\
     current_battery wk' <= target /\
     current_battery wk' =
       Qmin (current_battery wk + charge_rate wk * (1 # 2)) target) /\
  (current_battery wk < target -> hd false (cancel_script wk) = false ->
     iteration target (clock w1) wk (after_tick target wk)) /\
  (Qltb (current_battery wk) target = false -> current_battery wk == target) /\
  (exists n, forall fuel,
     charging_loop (n + fuel) target (clock w1)
                   (loop_entry (new_goal_handle script w1)) =
     charging_loop fuel target (clock w1) wk) /\
  (exists n, forall fuel, (n <= fuel)%nat ->
     exists r w' wend,
       run fuel target script w1 = Done r w' /\
       in_loop target (clock w1) wk wend /\
       current_battery w' = current_battery wend /\
       current_battery w1 <= current_battery wk /\
       current_battery wk <= current_battery w' /\
       current_battery w' <= target /\
       (success r = true ->
        current_battery w1 < current_battery w' /\
        current_battery w' == target) /\
       (success r = false ->
        current_battery w' < target /\
        hd false (cancel_script wend) = true)).
Proof.
  intros Hreach Hacc Hin.
  apply reachable_inv in Hreach. destruct Hreach as (Hr & _).
  apply goal_callback_accept_inv in Hacc. destruct Hacc as (_ & Hb & ->).
  set (w1 := logged _ w) in *.
  set (w0 := loop_entry _) in Hin.
  assert (0 < charge_rate w0) as Hpos by (cbn; rewrite Hr; lra).
  assert (current_battery wk <= target) as Hle
    by (apply (in_loop_battery_le _ _ _ Hpos _ (Qlt_le_weak _ _ Hb) Hin)).
  pose proof (in_loop_battery_ge _ _ _ Hpos _ Hin) as Hge.
  change (current_battery w0) with (current_battery w1) in Hge.
  assert (0 < charge_rate wk) as Hposk
    by (rewrite (in_loop_rate _ _ _ _ Hin); exact Hpos).
  destruct (in_loop_unroll _ _ _ _ Hin) as [n1 Hn1].
  split; [exact Hle|]. split; [|split; [|split; [|split]]].
  - intros wk' Hit.
    destruct (iteration_increases _ _ _ Hpos _ _ Hin Hit) as [H1 H2].
    apply iteration_inv in Hit. destruct Hit as (_ & _ & _ & ->).
    auto.
  - intros Hlt Hc. split; [apply Qltb_true; exact Hlt|].
    apply loop_body_tick; [exact Hc|].
    apply rate_nonzero. exact Hposk.
  - intros Hg. apply Qltb_false in Hg. lra.
  - exists n1. exact Hn1.
  - exists (n1 + ticks_needed target wk)%nat. intros fuel Hfuel.
    destruct (charging_loop_returns target (clock w1) (ticks_needed target wk)
                (fuel - n1) wk) as (x & w2 & Hloop);
      [lia|exact Hposk|exact (ticks_needed_enough target wk Hposk)|].
    pose proof Hloop as Hdone.
    apply (charging_loop_done _ _ _ wk wk x w2 (in_loop_entry _ _ _)) in Hdone.
    destruct Hdone as (wend & Hend & Hcase).
    pose proof (in_loop_battery_ge _ _ _ Hposk _ Hend) as Hge2.
    pose proof (in_loop_battery_le _ _ _ Hposk _ Hle Hend) as Hle2.
    unfold run. rewrite execute_callback_unfold.
    change (clock (new_goal_handle script w1)) with (clock w1).
    fold w0. replace fuel with (n1 + (fuel - n1))%nat by lia.
    rewrite Hn1, Hloop.
    destruct Hcase as [(-> & -> & Hg)|(r0 & -> & Hg & Hc & -> & ->)].
    + eexists. eexists. exists wend. split; [reflexivity|].
      cbn. repeat split; try assumption; try lra; discriminate.
    + eexists. eexists. exists wend. split; [reflexivity|].
      cbn. repeat split; try assumption; try lra; discriminate.
Qed.

Lemma charge_state_increases_to_target_witness :
  current_battery (loop_entry (new_goal_handle [] accepted_100)) <= 100 /\
  iteration 100 (clock accepted_100)
            (loop_entry (new_goal_handle [] accepted_100))
            (after_tick 100 (loop_entry (new_goal_handle [] accepted_100))).
Proof.
  destruct (charge_state_increases_to_target
              (BatteryCharger_init 0) 100 accepted_100 []
              (loop_entry (new_goal_handle [] accepted_100)))
    as (H1 & _ & H3 & _).
  - apply reach_init.
  - reflexivity.
  - apply in_loop_entry.
  - split; [exact H1|]. apply H3; reflexivity.
Defined.

(** C2.  When the top of any loop iteration observes a cancellation request,
    the execution returns the result with [success = false], the truncated
    charge state of the last completed increment as final level and
    [now - start] as elapsed time; the state it returns in differs from the
    one at the top of that iteration only in the goal handle's status and
    terminal call, the logger and the consumed cancellation read, so the
    charge state is not touched and no further feedback is published. *)
Theorem cancellation_returns_immediately
        (target : Q) (script : list bool) (w wk : World) :
  in_loop target (clock w) (loop_entry (new_goal_handle script w)) wk ->
  current_battery wk < target ->
  hd false (cancel_script wk) = true ->
  (exists n, forall fuel, (n <= fuel)%nat ->
     run fuel target script w =
     Done (mkResult false (int (current_battery wk)) (clock wk - clock w))
          (after_cancel wk)) /\
  current_battery (after_cancel wk) = current_battery wk /\
  published (after_cancel wk) = published wk /\
  clock (after_cancel wk) = clock wk /\
  status (after_cancel wk) = CANCELED.
Proof.
  intros Hin Hlt Hc. split; [|repeat split].
  destruct (in_loop_unroll _ _ _ _ Hin) as [n Hn].
  exists (S n). intros fuel Hfuel.
  unfold run. rewrite execute_callback_unfold.
  change (clock (new_goal_handle script w)) with (clock w).
  replace fuel with (n + S (fuel - S n))%nat by lia.
  rewrite Hn, charging_loop_return by assumption. reflexivity.
Qed.

Lemma cancellation_returns_immediately_witness :
  exists n, forall fuel, (n <= fuel)%nat ->
    run fuel 100 [true] accepted_100 =
    Done (mkResult false 20 (0 - 0))
         (after_cancel (loop_entry (new_goal_handle [true] accepted_100))).
Proof.
  destruct (cancellation_returns_immediately
              100 [true] accepted_100
              (loop_entry (new_goal_handle [true] accepted_100)))
    as [H _].
  - apply in_loop_entry.
  - reflexivity.
  - reflexivity.
  - exact H.
Defined.

(** C3.  A goal whose target is below 0 or above 100 is rejected, and the
    rejection is reported as an invalid target. *)
Theorem invalid_target_rejected (target : Q) (w : World) :
  target < 0 \/ 100 < target ->
  goal_callback target w =
  Done REJECT
       (logged [Info_request_received target; Warn_invalid_target target] w).
Proof.
  intros H.
  destruct (goal_callback_cases target w)
    as [[_ E]|[(Ht & _ & _)|(Ht & _ & _)]]; [exact E| |];
    exfalso; destruct H; lra.
Qed.

Lemma invalid_target_rejected_witness :
  goal_callback 101 (BatteryCharger_init 0) =
  Done REJECT
       (logged [Info_request_received 101; Warn_invalid_target 101]
               (BatteryCharger_init 0)).
Proof.
  apply invalid_target_rejected. right. reflexivity.
Defined.

(** C4.  A goal whose target lies in [0, 100] and is at most the current
    charge state is rejected, and the rejection is reported as the level
    being reached already. *)
Theorem satisfied_target_rejected (target : Q) (w : World) :
  0 <= target <= 100 ->
  target <= current_battery w ->
  goal_callback target w =
  Done REJECT
       (logged [Info_request_received target;
                Warn_already_at (current_battery w) target] w).
Proof.
  intros Ht Hb.
  destruct (goal_callback_cases target w)
    as [[[H|H] _]|[(_ & _ & E)|(_ & H & _)]]; [| |exact E|];
    exfalso; lra.
Qed.

Lemma satisfied_target_rejected_witness :
  goal_callback 20 (BatteryCharger_init 0) =
  Done REJECT
       (logged [Info_request_received 20; Warn_already_at 20 20]
               (BatteryCharger_init 0)).
Proof.
  apply (satisfied_target_rejected 20 (BatteryCharger_init 0)).
  - split; discriminate.
  - discriminate.
Defined.

(** C5.  For every accepted goal the feedback published during its execution
    is non-decreasing in [current_percentage], and when the execution
    succeeds the last feedback published shows the result's final level. *)
Theorem feedback_nondecreasing_and_final
        (w : World) (target : Q) (w1 : World) (script : list bool)
        (fuel : nat) (r : Result) (w' : World) :
  reachable w ->
  goal_callback target w = Done ACCEPT w1 ->
  run fuel target script w1 = Done r w' ->
  nondecreasing (map current_percentage (published w')) /\
  (success r = true ->
   exists p f, published w' = p ++ [f] /\
               current_percentage f = final_percentage r).
Proof.
  intros Hreach Hacc Hrun.
  apply reachable_inv in Hreach. destruct Hreach as (Hr & _).
  apply goal_callback_accept_inv in Hacc. destruct Hacc as (_ & Hb & ->).
  apply run_done_inv in Hrun.
  destruct Hrun as (wk & Hin & _ & _ & -> & _ & -> & _ & Hend).
  set (w0 := loop_entry _) in Hin.
  assert (0 < charge_rate w0) as Hpos by (cbn; rewrite Hr; lra).
  split.
  - apply (in_loop_feedback_sorted _ _ _ _ Hpos eq_refl Hin).
  - intros Hs. destruct Hend as [(_ & Hge & _)|(Hf & _)]; [|congruence].
    destruct (in_loop_last_feedback _ _ _ _ Hin) as [->|H]; [|exact H].
    exfalso. cbn in Hge. lra.
Qed.

Lemma feedback_nondecreasing_and_final_witness :
  exists r w',
    run 32 100 [] accepted_100 = Done r w' /\
    nondecreasing (map current_percentage (published w')) /\
    exists p f, published w' = p ++ [f] /\
                current_percentage f = final_percentage r.
Proof.
  destruct full_charge_run as (r & w' & Hrun & Hs & _).
  exists r, w'. split; [exact Hrun|].
  destruct (feedback_nondecreasing_and_final
              (BatteryCharger_init 0) 100 accepted_100 [] 32 r w')
    as [H1 H2].
  - apply reach_init.
  - reflexivity.
  - exact Hrun.
  - split; [exact H1|exact (H2 Hs)].
Defined.

(** C6.  From level 20 with a rate of 10 per second and ticks of 0.5 s, the
    goal 100 is accepted, every completed tick adds 5 (after [k] ticks the
    level is [20 + 5 k]), and the execution, when not cancelled, returns
    after exactly 16 ticks with success, final level 100, the level at 100
    and 8 seconds elapsed. *)
Theorem full_charge_at_rate_10 (w : World) (script : list bool) :
  current_battery w == 20 ->
  charge_rate w == 10 ->
  never_cancelled script ->
  exists w1,
    goal_callback 100 w = Done ACCEPT w1 /\
    charge_rate w1 * (1 # 2) == 5 /\
    (forall wk,
       in_loop 100 (clock w1) (loop_entry (new_goal_handle script w1)) wk ->
       current_battery wk ==
         20 + 5 * inject_Z (Z.of_nat (length (published wk))) /\
       (length (published wk) <= 16)%nat) /\
    forall fuel, (16 <= fuel)%nat ->
      exists r w',
        run fuel 100 script w1 = Done r w' /\
        success r = true /\
        final_percentage r = 100%Z /\
        charging_time r == 8 /\
        length (published w') = 16%nat /\
        current_battery w' == 100 /\
        status w' = SUCCEEDED.
Proof.
  intros Hb Hr Hs.
  destruct (goal_callback_cases 100 w)
    as [[[H|H] _]|[(_ & H & _)|(_ & _ & E)]]; try (exfalso; lra).
  eexists. split; [exact E|].
  set (w1 := logged _ w).
  set (w0 := loop_entry (new_goal_handle script w1)).
  assert (current_battery w0 == 20) as Hb0 by exact Hb.
  assert (charge_rate w0 == 10) as Hr0 by exact Hr.
  assert (0 < charge_rate w0) as Hpos by lra.
  split; [change (charge_rate w1) with (charge_rate w); lra|].
  split; [intros wk Hin; exact (rate_10_levels _ _ _ Hb0 Hr0 eq_refl Hin)|].
  intros fuel Hfuel.
  destruct (charging_loop_exact 100 (clock w1) 16 fuel w0 Hfuel Hpos Hs)
    as (w' & Hloop & Hlen).
  { cbn [tick_interval].
    change (inject_Z (Z.of_nat 15)) with 15.
    change (inject_Z (Z.of_nat 16)) with 16. split; lra. }
  cbn [published w0 loop_entry new_goal_handle set_feedback_msg set_logger
       set_published set_handle_calls length Nat.add] in Hlen.
  pose proof Hloop as Hdone.
  apply (charging_loop_done fuel 100 (clock w1) w0 w0 None w'
           (in_loop_entry _ _ _)) in Hdone.
  destruct Hdone as (wk & Hin & [(_ & -> & Hge)|(r0 & Hx & _)]);
    [|discriminate].
  assert (current_battery w0 <= 100) as Hle0 by lra.
  pose proof (in_loop_battery_le _ _ _ Hpos _ Hle0 Hin) as Hle.
  assert (current_battery wk == 100) as Hfinal by lra.
  pose proof (in_loop_clock 100 (clock w1) w0 wk eq_refl Hin) as Hclock.
  rewrite Hlen in Hclock.
  change (clock w0) with (clock w1) in Hclock.
  change (inject_Z (Z.of_nat 16)) with 16 in Hclock.
  change (clock w1) with (clock w) in Hclock.
  unfold run. rewrite execute_callback_unfold.
  change (clock (new_goal_handle script w1)) with (clock w1).
  fold w0. rewrite Hloop.
  eexists. eexists. split; [reflexivity|].
  cbn. split; [reflexivity|]. split.
  - rewrite (int_proper _ 100 Hfinal). reflexivity.
  - split; [lra|]. split; [exact Hlen|]. split; [exact Hfinal|reflexivity].
Qed.

Lemma full_charge_at_rate_10_witness :
  exists w1,
    goal_callback 100 rate_10_world = Done ACCEPT w1 /\
    exists r w',
      run 16 100 [] w1 = Done r w' /\
      success r = true /\
      final_percentage r = 100%Z /\
      charging_time r == 8 /\
      length (published w') = 16%nat /\
      current_battery w' == 100 /\
      status w' = SUCCEEDED.
Proof.
  destruct (full_charge_at_rate_10 rate_10_world [])
    as (w1 & Hacc & _ & _ & Hrun).
  - reflexivity.
  - reflexivity.
  - constructor.
  - exists w1. split; [exact Hacc|]. apply Hrun. apply le_n.
Defined.

(** C7.  From level 20 with ticks that add 5 (a rate of 10 per second), the
    goal 100 is accepted, and when cancellation is requested after three
    completed ticks the execution returns [success = false], final level
    35 (the level is 20 + 3 * 5) and 1.5 seconds elapsed, whatever would
    have been read from the flag later. *)
Theorem cancel_after_3_at_rate_10 (w : World) (rest : list bool) :
  current_battery w == 20 ->
  charge_rate w == 10 ->
  exists w1,
    goal_callback 100 w = Done ACCEPT w1 /\
    forall fuel, (4 <= fuel)%nat ->
      exists r w',
        run fuel 100 (false :: false :: false :: true :: rest) w1
          = Done r w' /\
        success r = false /\
        final_percentage r = 35%Z /\
        charging_time r == 3 # 2 /\
        current_battery w' == 35 /\
        length (published w') = 3%nat /\
        status w' = CANCELED.
Proof.
  intros Hb Hr.
  destruct (goal_callback_cases 100 w)
    as [[[H|H] _]|[(_ & H & _)|(_ & _ & E)]]; try (exfalso; lra).
  eexists. split; [exact E|].
  set (w1 := logged _ w).
  set (script := false :: false :: false :: true :: rest).
  set (w0 := loop_entry (new_goal_handle script w1)).
  assert (current_battery w0 == 20) as Hb0 by exact Hb.
  assert (charge_rate w0 == 10) as Hr0 by exact Hr.
  assert (Qeq_bool (charge_rate w0) 0 = false) as Hnz
    by (apply rate_nonzero; lra).
  pose proof (in_loop_entry 100 (clock w1) w0) as Hin0.
  assert (forall wk,
            in_loop 100 (clock w1) w0 wk ->
            (length (published wk) < 16)%nat ->
            hd false (cancel_script wk) = false ->
            iteration 100 (clock w1) wk (after_tick 100 wk)) as Hstep.
  { intros wk Hin Hk Hc.
    destruct (rate_10_levels _ _ _ Hb0 Hr0 eq_refl Hin) as [Hl _].
    assert (inject_Z (Z.of_nat (length (published wk))) <= inject_Z 15) as Hq
      by (rewrite <- Zle_Qle; lia).
    change (inject_Z 15) with 15 in Hq.
    split; [apply Qltb_true; lra|].
    apply loop_body_tick; [exact Hc|].
    rewrite (in_loop_rate _ _ _ _ Hin). exact Hnz. }
  pose proof (Hstep w0 Hin0 ltac:(cbn; lia) eq_refl) as Hit1.
  set (wa := after_tick 100 w0) in *.
  pose proof (in_loop_next _ _ _ _ _ Hin0 Hit1) as Hin1.
  pose proof (Hstep wa Hin1 ltac:(cbn; lia) eq_refl) as Hit2.
  set (wb := after_tick 100 wa) in *.
  pose proof (in_loop_next _ _ _ _ _ Hin1 Hit2) as Hin2.
  pose proof (Hstep wb Hin2 ltac:(cbn; lia) eq_refl) as Hit3.
  set (wc := after_tick 100 wb) in *.
  pose proof (in_loop_next _ _ _ _ _ Hin2 Hit3) as Hin3.
  destruct (rate_10_levels _ _ _ Hb0 Hr0 eq_refl Hin3) as [Hl3 _].
  change (length (published wc)) with 3%nat in Hl3.
  change (inject_Z (Z.of_nat 3)) with 3 in Hl3.
  assert (current_battery wc == 35) as Hlevel by lra.
  intros fuel Hfuel.
  destruct fuel as [|[|[|[|fuel]]]]; try lia.
  unfold run. rewrite execute_callback_unfold.
  change (clock (new_goal_handle script w1)) with (clock w1).
  fold w0.
  rewrite (charging_loop_step _ _ _ _ _ Hit1).
  rewrite (charging_loop_step _ _ _ _ _ Hit2).
  rewrite (charging_loop_step _ _ _ _ _ Hit3).
  rewrite charging_loop_return; [|lra|reflexivity].
  eexists. eexists. split; [reflexivity|].
  cbn [success final_percentage charging_time].
  split; [reflexivity|]. split.
  - rewrite (int_proper _ 35 Hlevel). reflexivity.
  - split; [cbn; ring|]. split; [exact Hlevel|]. split; reflexivity.
Qed.

Lemma cancel_after_3_at_rate_10_witness :
  exists w1,
    goal_callback 100 rate_10_world = Done ACCEPT w1 /\
    exists r w',
      run 4 100 [false; false; false; true] w1 = Done r w' /\
      success r = false /\
      final_percentage r = 35%Z /\
      charging_time r == 3 # 2 /\
      current_battery w' == 35 /\
      length (published w') = 3%nat /\
      status w' = CANCELED.
Proof.
  destruct (cancel_after_3_at_rate_10 rate_10_world [])
    as (w1 & Hacc & Hrun).
  - reflexivity.
  - reflexivity.
  - exists w1. split; [exact Hacc|]. apply Hrun. apply le_n.
Defined.

(** C8.  For every accepted goal, with a positive rate and no cancellation
    request, the execution loop ends after finitely many iterations: there
    is a number of ticks from which on the callback returns, and it returns
    success. *)
Theorem execution_terminates
        (w : World) (target : Q) (w1 : World) (script : list bool) :
  0 < charge_rate w ->
  goal_callback target w = Done ACCEPT w1 ->
  never_cancelled script ->
  exists n, forall fuel, (n <= fuel)%nat ->
    exists r w', run fuel target script w1 = Done r w' /\
                 success r = true /\
                 current_battery w' == target.
Proof.
  intros Hr Hacc Hs.
  apply goal_callback_accept_inv in Hacc. destruct Hacc as (_ & Hb & ->).
  set (w1 := logged _ w).
  set (w0 := loop_entry (new_goal_handle script w1)).
  assert (0 < charge_rate w0) as Hpos by exact Hr.
  exists (ticks_needed target w0). intros fuel Hfuel.
  destruct (charging_loop_terminates target (clock w1) _ fuel w0 Hfuel Hpos Hs
              (ticks_needed_enough target w0 Hpos)) as [w' Hloop].
  pose proof Hloop as Hdone.
  apply (charging_loop_done fuel target (clock w1) w0 w0 None w'
           (in_loop_entry _ _ _)) in Hdone.
  destruct Hdone as (wk & Hin & [(_ & -> & Hge)|(r0 & Hx & _)]);
    [|discriminate].
  pose proof (in_loop_battery_le _ _ _ Hpos _ (Qlt_le_weak _ _ Hb) Hin) as Hle.
  unfold run. rewrite execute_callback_unfold.
  change (clock (new_goal_handle script w1)) with (clock w1).
  fold w0. rewrite Hloop.
  eexists. eexists. split; [reflexivity|].
  split; [reflexivity|]. cbn. lra.
Qed.

Lemma execution_terminates_witness :
  exists n, forall fuel, (n <= fuel)%nat ->
    exists r w', run fuel 100 [] accepted_100 = Done r w' /\
                 success r = true /\
                 current_battery w' == 100.
Proof.
  apply (execution_terminates (BatteryCharger_init 0) 100 accepted_100 []).
  - reflexivity.
  - reflexivity.
  - constructor.
Defined.

(** C9.  Admission returns a decision and changes nothing but the logger, so
    the charge state is the same after it, whether the goal was accepted or
    rejected; at level 50 the goal 30 is rejected as already reached and the
    level is still 50. *)
Theorem admission_leaves_charge_state (target : Q) (w : World) :
  (exists resp w',
     goal_callback target w = Done resp w' /\
     w' = set_logger (logger w') w /\
     current_battery w' = current_battery w) /\
  (current_battery w == 50 -> target == 30 ->
   exists w',
     goal_callback target w = Done REJECT w' /\
     logger w' = logger w ++ [Info_request_received target;
                              Warn_already_at (current_battery w) target] /\
     current_battery w' == 50).
Proof.
  split.
  - destruct (goal_callback_cases target w)
      as [[_ E]|[(_ & _ & E)|(_ & _ & E)]];
      rewrite E; eexists; eexists; repeat split; reflexivity.
  - intros H50 H30.
    destruct (goal_callback_cases target w)
      as [[[H|H] _]|[(_ & _ & E)|(_ & H & _)]]; try (exfalso; lra).
    rewrite E. eexists. split; [reflexivity|].
    split; [reflexivity|exact H50].
Qed.

Lemma admission_leaves_charge_state_witness :
  current_battery world_at_50 == 50 /\
  exists w',
    goal_callback 30 world_at_50 = Done REJECT w' /\
    logger w' = logger world_at_50 ++
                [Info_request_received 30;
                 Warn_already_at (current_battery world_at_50) 30] /\
    current_battery w' == 50.
Proof.
  split; [vm_compute; reflexivity|].
  apply (proj2 (admission_leaves_charge_state 30 world_at_50)).
  - vm_compute. reflexivity.
  - reflexivity.
Defined.

(** C10.  The server is constructed at level 20 with rate 5, and the rate is
    5 in every world the callbacks can lead to, also in the middle of an
    execution; so no execution raises [ZeroDivisionError] at the division by
    the rate, and every completed tick sets the level to
    [min(level + 2.5, target)]. *)
Theorem rate_is_constant (w : World) :
  reachable w ->
  (forall t0, current_battery (BatteryCharger_init t0) = 20 /\
              charge_rate (BatteryCharger_init t0) = 5) /\
  charge_rate w = 5 /\
  (forall fuel target script e w',
     run fuel target script w <> Raised e w') /\
  (forall target script wk,
     in_loop target (clock w) (loop_entry (new_goal_handle script w)) wk ->
     charge_rate wk = 5 /\
     (forall e w', loop_body target (clock w) wk <> Raised e w') /\
     (forall wk', iteration target (clock w) wk wk' ->
        charge_rate wk * (1 # 2) = 5 # 2 /\
        current_battery wk' = Qmin (current_battery wk + (5 # 2)) target)).
Proof.
  intros Hreach. apply reachable_inv in Hreach. destruct Hreach as (Hr & _).
  split; [intros t0; split; reflexivity|].
  split; [exact Hr|]. split.
  - intros fuel target script e w'. apply run_no_raise.
    rewrite Hr. reflexivity.
  - intros target script wk Hin.
    apply in_loop_rate in Hin. cbn in Hin. rewrite Hr in Hin.
    split; [exact Hin|]. split.
    + intros e w' Hraise.
      destruct (hd false (cancel_script wk)) eqn:Hc.
      * rewrite loop_body_cancelled in Hraise by assumption. discriminate.
      * rewrite loop_body_tick in Hraise;
          [discriminate|assumption|rewrite Hin; reflexivity].
    + intros wk' Hit. apply iteration_inv in Hit.
      destruct Hit as (_ & _ & _ & ->).
      cbn [after_tick current_battery].
      unfold charged. rewrite Hin. split; reflexivity.
Qed.

Lemma rate_is_constant_witness :
  charge_rate accepted_100 = 5 /\
  forall fuel target script e w',
    run fuel target script accepted_100 <> Raised e w'.
Proof.
  destruct (rate_is_constant accepted_100) as (_ & H1 & H2 & _).
  - apply (reach_goal (BatteryCharger_init 0) 100 ACCEPT).
    + apply reach_init.
    + reflexivity.
  - split; [exact H1|exact H2].
Defined.

(** * Further properties of the callbacks *)

(** ** Reads of the cancellation flag *)

Lemma charging_loop_script (target start_time : Q) :
  forall fuel n rest w x w',
    cancel_script w = repeat false n ++ true :: rest ->
    charging_loop fuel target start_time w = Done x w' ->
    (x = None /\ (length (published w') <= length (published w) + n)%nat) \/
    (exists r, x = Some r /\ success r = false /\
               length (published w') = (length (published w) + n)%nat /\
               cancel_script w' = rest).
Proof.
  induction fuel as [|fuel IH]; intros n rest w x w' Hs Hrun; simpl in Hrun;
    destruct (Qltb (current_battery w) target) eqn:Hg; try discriminate;
    try (inversion Hrun; subst; left; split; [reflexivity|lia]).
  destruct n as [|n]; cbn [repeat app] in Hs.
  - rewrite loop_body_cancelled in Hrun by (rewrite Hs; reflexivity).
    inversion Hrun; subst. right. eexists. split; [reflexivity|].
    cbn. rewrite Hs. split; [reflexivity|]. split; [lia|reflexivity].
  - assert (hd false (cancel_script w) = false) as Hc
      by (rewrite Hs; reflexivity).
    destruct (Qeq_bool (charge_rate w) 0) eqn:Hr.
    + destruct (loop_body_zero_rate target start_time w Hc Hr) as [w2 E].
      rewrite E in Hrun. discriminate.
    + rewrite loop_body_tick in Hrun by assumption.
      apply (IH n rest) in Hrun;
        [|cbn [after_tick cancel_script]; rewrite Hs; reflexivity].
      cbn [after_tick published] in Hrun. rewrite length_app in Hrun.
      cbn [length] in Hrun.
      destruct Hrun as [[-> Hlen]|(r & -> & Hsucc & Hlen & Hrest)].
      * left. split; [reflexivity|lia].
      * right. exists r. repeat split; [exact Hsucc|lia|exact Hrest].
Qed.

(** ** A zero rate *)

Lemma loop_body_raises (target start_time : Q) (w : World) :
  hd false (cancel_script w) = false ->
  Qeq_bool (charge_rate w) 0 = true ->
  loop_body target start_time w =
  Raised ZeroDivisionError
         (set_current_battery (charged target w)
            (set_cancel_script (tl (cancel_script w)) w)).
Proof.
  intros H Hr. destruct w as [b r l c s st p f hc]. cbn in H, Hr.
  unfold loop_body, charged.
  unfold bind at 1. unfold is_cancel_requested. cbn [cancel_script].
  destruct s as [|x s]; cbn in H; try subst x; to_division;
    rewrite Hr; reflexivity.
Qed.

(** How an execution that returned ended. *)
Lemma result_shape (fuel : nat) (target : Q) (script : list bool)
      (w : World) (r : Result) (w' : World) :
  run fuel target script w = Done r w' ->
  (success r = true /\ target <= current_battery w') \/
  (success r = false /\ current_battery w' < target).
Proof.
  intros Hrun. apply run_done_inv in Hrun.
  destruct Hrun as (wk & _ & _ & -> & _ & _ & _ & _ & H).
  destruct H as [(Hs & Hg & _)|(Hs & Hg & _)]; [left|right]; auto.
Qed.

(** ** Admission *)

(** X1.  [goal_callback] always answers, and it accepts exactly the targets
    that lie in [0, 100] and above the present level. *)
Theorem admission_accepts_iff (target : Q) (w : World) :
  (exists resp w', goal_callback target w = Done resp w') /\
  ((exists w', goal_callback target w = Done ACCEPT w') <->
   (0 <= target <= 100 /\ current_battery w < target)).
Proof.
  destruct (goal_callback_cases target w)
    as [[H E]|[(Ht & Hb & E)|(Ht & Hb & E)]].
  - split; [eauto|]. split.
    + intros [w' H']. congruence.
    + intros [Ht Hb]. exfalso. destruct H; lra.
  - split; [eauto|]. split.
    + intros [w' H']. congruence.
    + intros [_ Hb']. exfalso. lra.
  - split; [eauto|]. split; [auto|eauto].
Qed.

Lemma admission_accepts_iff_witness :
  exists w', goal_callback 100 (BatteryCharger_init 0) = Done ACCEPT w'.
Proof.
  apply (proj2 (proj2 (admission_accepts_iff 100 (BatteryCharger_init 0)))).
  split; [split; discriminate|reflexivity].
Defined.

(** ** The level over the life of the server *)

(** X2.  Between callbacks and at every top of the loop of an accepted
    goal, the level lies between the constructor's 20 and 100. *)
Theorem level_stays_in_range (w : World) :
  reachable w ->
  (20 <= current_battery w /\ current_battery w <= 100) /\
  forall target w1 script wk,
    goal_callback target w = Done ACCEPT w1 ->
    in_loop target (clock w1) (loop_entry (new_goal_handle script w1)) wk ->
    20 <= current_battery wk /\ current_battery wk <= 100.
Proof.
  intros Hreach. apply reachable_inv in Hreach.
  destruct Hreach as (Hr & Hlo & Hhi). split; [auto|].
  intros target w1 script wk Hacc Hin.
  apply goal_callback_accept_inv in Hacc. destruct Hacc as (Ht & Hb & ->).
  set (w0 := loop_entry _) in Hin.
  assert (0 < charge_rate w0) as Hpos by (cbn; rewrite Hr; lra).
  pose proof (in_loop_battery_ge _ _ _ Hpos _ Hin) as Hge.
  pose proof (in_loop_battery_le _ _ _ Hpos _ (Qlt_le_weak _ _ Hb) Hin) as Hle.
  cbn in Hge. split; lra.
Qed.

Lemma level_stays_in_range_witness :
  20 <= current_battery world_at_50 /\ current_battery world_at_50 <= 100.
Proof.
  apply (level_stays_in_range world_at_50).
  apply (reach_execute (BatteryCharger_init 0) 50
           (logged [Info_request_received 50; Info_goal_accepted]
                   (BatteryCharger_init 0))
           [] 12
           (mkResult true 50 (clock world_at_50 - 0)) world_at_50).
  - apply reach_init.
  - reflexivity.
  - vm_compute. reflexivity.
Defined.

(** X3.  With a positive rate an execution that returns never lowers the
    level, leaves the rate alone, and does not pass a target the level was
    not above. *)
Theorem execution_never_discharges
        (fuel : nat) (target : Q) (script : list bool) (w : World)
        (r : Result) (w' : World) :
  0 < charge_rate w ->
  run fuel target script w = Done r w' ->
  current_battery w <= current_battery w' /\
  charge_rate w' = charge_rate w /\
  (current_battery w <= target -> current_battery w' <= target).
Proof.
  intros Hr Hrun. apply run_done_inv in Hrun.
  destruct Hrun as (wk & Hin & -> & -> & _).
  set (w0 := loop_entry _) in Hin.
  assert (0 < charge_rate w0) as Hpos by exact Hr.
  split; [|split].
  - exact (in_loop_battery_ge _ _ _ Hpos _ Hin).
  - exact (in_loop_rate _ _ _ _ Hin).
  - intros Hle. exact (in_loop_battery_le _ _ _ Hpos _ Hle Hin).
Qed.

Lemma execution_never_discharges_witness :
  exists r w',
    run 4 100 [false; false; false; true] accepted_100 = Done r w' /\
    current_battery accepted_100 <= current_battery w' /\
    current_battery w' <= 100.
Proof.
  destruct cancelled_run as (r & w' & Hrun & _).
  exists r, w'. split; [exact Hrun|].
  destruct (execution_never_discharges
              4 100 [false; false; false; true] accepted_100 r w')
    as (H1 & _ & H3).
  - reflexivity.
  - exact Hrun.
  - split; [exact H1|]. apply H3. discriminate.
Defined.

(** ** Results *)

(** X4.  When the level is at or above the target already, the execution
    succeeds at once, whatever the fuel and the cancellation reads: the loop
    is not entered, no cancellation read is consumed, nothing is published,
    the level is untouched and no time has elapsed. *)
Theorem execute_satisfied_goal
        (fuel : nat) (target : Q) (script : list bool) (w : World) :
  target <= current_battery w ->
  exists w',
    run fuel target script w =
    Done (mkResult true (int (current_battery w)) (clock w - clock w)) w' /\
    published w' = [] /\
    cancel_script w' = script /\
    current_battery w' = current_battery w /\
    clock w' = clock w /\
    status w' = SUCCEEDED.
Proof.
  intros Hge. unfold run. rewrite execute_callback_unfold.
  rewrite charging_loop_exit by (apply Qltb_false; exact Hge).
  eexists. split; [reflexivity|]. repeat split.
Qed.

Lemma execute_satisfied_goal_witness :
  exists w',
    run 0 30 [true] world_at_50 =
    Done (mkResult true (int (current_battery world_at_50))
                   (clock world_at_50 - clock world_at_50)) w' /\
    published w' = [].
Proof.
  destruct (execute_satisfied_goal 0 30 [true] world_at_50)
    as (w' & Hrun & Hp & _).
  - vm_compute. discriminate.
  - exists w'. split; [exact Hrun|exact Hp].
Defined.

(** The terminal calls the loop makes on the goal handle: [canceled()] once
    when it returns from the cancellation branch, and none otherwise. *)
Lemma charging_loop_calls (target start_time : Q) :
  forall fuel w,
    match charging_loop fuel target start_time w with
    | Done (Some _) w' => handle_calls w' = handle_calls w ++ [CANCELED] /\
                          status w' = CANCELED
    | Done None w' => handle_calls w' = handle_calls w /\
                      status w' = status w
    | Raised _ w' => handle_calls w' = handle_calls w /\
                     status w' = status w
    | OutOfFuel => True
    end.
Proof.
  induction fuel as [|fuel IH]; intros w; cbn [charging_loop];
    destruct (Qltb (current_battery w) target); try (split; reflexivity);
    try exact I.
  destruct (hd false (cancel_script w)) eqn:Hc.
  - rewrite loop_body_cancelled by exact Hc. split; reflexivity.
  - destruct (Qeq_bool (charge_rate w) 0) eqn:Hr.
    + rewrite loop_body_raises by assumption. split; reflexivity.
    + rewrite loop_body_tick by assumption.
      exact (IH (after_tick target w)).
Qed.

(** X5.  Every execution that returns has made exactly one terminal call on
    its goal handle, and it agrees with the result: [succeed()] with
    [success = True] at a level that reached the target, or [canceled()]
    with [success = False] at a level below it; the final percentage is the
    truncated level the node is left at.  An execution that raises has made
    no terminal call. *)
Theorem result_matches_terminal_state
        (fuel : nat) (target : Q) (script : list bool) (w : World) :
  (forall r w',
     run fuel target script w = Done r w' ->
     final_percentage r = int (current_battery w') /\
     charging_time r = clock w' - clock w /\
     ((success r = true /\ handle_calls w' = [SUCCEEDED] /\
       status w' = SUCCEEDED /\ target <= current_battery w') \/
      (success r = false /\ handle_calls w' = [CANCELED] /\
       status w' = CANCELED /\ current_battery w' < target))) /\
  (forall e w',
     run fuel target script w = Raised e w' ->
     handle_calls w' = [] /\ status w' = EXECUTING).
Proof.
  pose proof (charging_loop_calls target (clock w) fuel
                (loop_entry (new_goal_handle script w))) as Hcalls.
  cbn [loop_entry new_goal_handle handle_calls status set_handle_calls
       set_feedback_msg set_logger set_published set_status app] in Hcalls.
  split.
  - intros r w' Hrun.
    unfold run in Hrun. rewrite execute_callback_unfold in Hrun.
    change (clock (new_goal_handle script w)) with (clock w) in Hrun.
    destruct (charging_loop fuel target (clock w) _) as [x w2|e w2|] eqn:Hloop;
      try discriminate.
    apply (charging_loop_done fuel target (clock w) _ _ x w2
             (in_loop_entry _ _ _)) in Hloop.
    destruct Hloop as (wk & _ & [(-> & -> & Hg)|(r0 & -> & Hg & _ & -> & ->)]);
      destruct Hcalls as [Hc Hst]; inversion Hrun; subst; clear Hrun.
    + split; [reflexivity|]. split; [reflexivity|]. left.
      cbn [success handle_calls status current_battery set_logger
           set_handle_calls set_status].
      rewrite Hc. repeat split. exact Hg.
    + split; [reflexivity|]. split; [reflexivity|]. right.
      cbn [success]. repeat split; assumption.
  - intros e w' Hrun.
    unfold run in Hrun. rewrite execute_callback_unfold in Hrun.
    change (clock (new_goal_handle script w)) with (clock w) in Hrun.
    destruct (charging_loop fuel target (clock w) _) as [[r0|] w2|e2 w2|];
      try discriminate. inversion Hrun; subst. exact Hcalls.
Qed.

Lemma result_matches_terminal_state_witness :
  exists r w',
    run 4 100 [false; false; false; true] accepted_100 = Done r w' /\
    final_percentage r = int (current_battery w') /\
    handle_calls w' = [CANCELED].
Proof.
  destruct cancelled_run as (r & w' & Hrun & Hs & _).
  exists r, w'. split; [exact Hrun|].
  destruct (proj1 (result_matches_terminal_state
                     4 100 [false; false; false; true] accepted_100)
                  r w' Hrun)
    as (Hf & _ & [(Hs' & _)|(_ & Hc & _)]).
  - rewrite Hs in Hs'. discriminate.
  - split; [exact Hf|exact Hc].
Defined.

(** X6.  On the clock that only [time.sleep] advances, the elapsed time a
    result reports is half a second for every feedback published. *)
Theorem elapsed_is_half_second_per_feedback
        (fuel : nat) (target : Q) (script : list bool) (w : World)
        (r : Result) (w' : World) :
  run fuel target script w = Done r w' ->
  charging_time r ==
  inject_Z (Z.of_nat (length (published w'))) * (1 # 2).
Proof.
  intros Hrun. apply run_done_inv in Hrun.
  destruct Hrun as (wk & Hin & _ & _ & -> & _ & _ & -> & _).
  rewrite (in_loop_clock target (clock w)
             (loop_entry (new_goal_handle script w)) wk eq_refl Hin).
  change (clock (loop_entry (new_goal_handle script w))) with (clock w).
  ring.
Qed.

Lemma elapsed_is_half_second_per_feedback_witness :
  exists r w',
    run 4 100 [false; false; false; true] accepted_100 = Done r w' /\
    charging_time r ==
    inject_Z (Z.of_nat (length (published w'))) * (1 # 2).
Proof.
  destruct cancelled_run as (r & w' & Hrun & _).
  exists r, w'. split; [exact Hrun|].
  apply (elapsed_is_half_second_per_feedback
           4 100 [false; false; false; true] accepted_100 r w' Hrun).
Defined.

(** X7.  After an accepted goal was executed, submitting the same target
    again is rejected as already reached when the execution succeeded, and
    accepted again when it was cancelled. *)
Theorem resubmit_after_execution
        (w : World) (target : Q) (w1 : World) (script : list bool)
        (fuel : nat) (r : Result) (w' : World) :
  goal_callback target w = Done ACCEPT w1 ->
  run fuel target script w1 = Done r w' ->
  goal_callback target w' =
  Done (if success r then REJECT else ACCEPT)
       (logged [Info_request_received target;
                if success r
                then Warn_already_at (current_battery w') target
                else Info_goal_accepted] w').
Proof.
  intros Hacc Hrun.
  apply goal_callback_accept_inv in Hacc. destruct Hacc as (Ht & _ & _).
  apply result_shape in Hrun.
  destruct Hrun as [(-> & Hge)|(-> & Hlt)];
    destruct (goal_callback_cases target w')
      as [[[H|H] _]|[(_ & H & E)|(_ & H & E)]];
    try exact E; exfalso; lra.
Qed.

Lemma resubmit_after_execution_witness :
  exists r w',
    run 4 100 [false; false; false; true] accepted_100 = Done r w' /\
    goal_callback 100 w' =
    Done ACCEPT
         (logged [Info_request_received 100; Info_goal_accepted] w').
Proof.
  destruct cancelled_run as (r & w' & Hrun & Hs & _).
  exists r, w'. split; [exact Hrun|].
  pose proof (resubmit_after_execution
                (BatteryCharger_init 0) 100 accepted_100
                [false; false; false; true] 4 r w'
                eq_refl Hrun) as H.
  rewrite Hs in H. exact H.
Defined.

(** ** Ticks, cancellation reads and feedback *)

(** Levels of the constructed server stay on the half-percent grid when
    the target is on it. *)
Lemma in_loop_half_grid (target start_time : Q) (w0 w : World) :
  charge_rate w0 = 5 ->
  on_half_grid (current_battery w0) ->
  on_half_grid target ->
  in_loop target start_time w0 w ->
  on_half_grid (current_battery w).
Proof.
  intros Hr Hb Ht. induction 1 as [|w w' Hin IH Hit]; [exact Hb|].
  pose proof (in_loop_rate _ _ _ _ Hin) as Hrate. rewrite Hr in Hrate.
  apply iteration_inv in Hit. destruct Hit as (_ & _ & _ & ->).
  cbn [after_tick current_battery].
  apply half_grid_step; assumption.
Qed.

(** X8.  On the server as it can be reached (rate 5, level between 20 and
    100), when the level and the target are whole numbers of half percents
    (every integer target is), all levels of the execution are such numbers
    too, so that the float additions of the source are exact; an accepted
    goal that is never cancelled then publishes exactly
    [ceil((target - level) / 2.5)] feedbacks, one per tick, and succeeds
    with the truncated target as final percentage. *)
Theorem uncancelled_run_tick_count
        (w : World) (target : Q) (w1 : World) (script : list bool)
        (fuel : nat) :
  reachable w ->
  on_half_grid (current_battery w) ->
  on_half_grid target ->
  goal_callback target w = Done ACCEPT w1 ->
  never_cancelled script ->
  (ticks_needed target w <= fuel)%nat ->
  (forall wk,
     in_loop target (clock w1) (loop_entry (new_goal_handle script w1)) wk ->
     on_half_grid (current_battery wk)) /\
  exists r w',
    run fuel target script w1 = Done r w' /\
    success r = true /\
    length (published w') = ticks_needed target w /\
    final_percentage r = int target.
Proof.
  intros Hreach Hgrid Htgrid Hacc Hs Hfuel.
  apply reachable_inv in Hreach. destruct Hreach as (Hr5 & _).
  assert (0 < charge_rate w) as Hr by (rewrite Hr5; reflexivity).
  apply goal_callback_accept_inv in Hacc. destruct Hacc as (_ & Hb & ->).
  set (w1 := logged _ w).
  set (w0 := loop_entry (new_goal_handle script w1)).
  assert (0 < charge_rate w0) as Hpos by exact Hr.
  split.
  { intros wk Hin.
    exact (in_loop_half_grid target (clock w1) w0 wk Hr5 Hgrid Htgrid Hin). }
  destruct (charging_loop_exact target (clock w1) (ticks_needed target w)
              fuel w0 Hfuel Hpos Hs (ticks_needed_interval target w Hr))
    as (w' & Hloop & Hlen).
  pose proof Hloop as Hdone.
  apply (charging_loop_done fuel target (clock w1) w0 w0 None w'
           (in_loop_entry _ _ _)) in Hdone.
  destruct Hdone as (wk & Hin & [(_ & -> & Hge)|(r0 & Hx & _)]);
    [|discriminate].
  pose proof (in_loop_battery_le _ _ _ Hpos _ (Qlt_le_weak _ _ Hb) Hin) as Hle.
  unfold run. rewrite execute_callback_unfold.
  change (clock (new_goal_handle script w1)) with (clock w1).
  fold w0. rewrite Hloop.
  eexists. eexists. split; [reflexivity|].
  split; [reflexivity|]. split; [exact Hlen|].
  cbn. apply int_proper. lra.
Qed.

Lemma uncancelled_run_tick_count_witness :
  ticks_needed 100 (BatteryCharger_init 0) = 32%nat /\
  exists r w',
    run 32 100 [] accepted_100 = Done r w' /\
    success r = true /\
    length (published w') = ticks_needed 100 (BatteryCharger_init 0) /\
    final_percentage r = int 100.
Proof.
  split; [reflexivity|].
  apply (uncancelled_run_tick_count (BatteryCharger_init 0) 100 accepted_100).
  - apply reach_init.
  - exists 40%Z. reflexivity.
  - exists 200%Z. reflexivity.
  - reflexivity.
  - constructor.
  - apply le_n.
Defined.

(** X9.  When the cancellation flag reads false [n] times and then true, a
    returning execution has either succeeded within [n] ticks, or was
    cancelled after exactly [n] ticks without consuming a later read. *)
Theorem cancel_after_n_reads
        (fuel : nat) (target : Q) (n : nat) (rest : list bool) (w : World)
        (r : Result) (w' : World) :
  run fuel target (repeat false n ++ true :: rest) w = Done r w' ->
  (success r = true /\ (length (published w') <= n)%nat) \/
  (success r = false /\ length (published w') = n /\
   cancel_script w' = rest).
Proof.
  unfold run. rewrite execute_callback_unfold.
  destruct (charging_loop fuel target _ _) as [x w1|e w1|] eqn:Hloop;
    try discriminate.
  apply (charging_loop_script target _ fuel n rest) in Hloop;
    [|reflexivity].
  cbn [loop_entry new_goal_handle published set_feedback_msg set_logger
       set_published length Nat.add] in Hloop.
  destruct Hloop as [[-> Hlen]|(r0 & -> & Hsucc & Hlen & Hrest)];
    intros H; inversion H; subst; clear H; [left|right]; cbn; auto.
Qed.

Lemma cancel_after_n_reads_witness :
  exists r w',
    run 4 100 (repeat false 3 ++ [true]) accepted_100 = Done r w' /\
    ((success r = true /\ (length (published w') <= 3)%nat) \/
     (success r = false /\ length (published w') = 3%nat /\
      cancel_script w' = [])).
Proof.
  destruct cancelled_run as (r & w' & Hrun & _).
  exists r, w'. split; [exact Hrun|].
  apply (cancel_after_n_reads 4 100 3 [] accepted_100 r w' Hrun).
Defined.

(** X10.  Every feedback published for an accepted goal carries the
    server's rate 5, a non-negative remaining time and a percentage between
    the truncated starting level and the truncated target; when the
    execution succeeds, the last one reports the truncated target and no
    time remaining. *)
Theorem feedback_contents
        (w : World) (target : Q) (w1 : World) (script : list bool)
        (fuel : nat) (r : Result) (w' : World) :
  reachable w ->
  goal_callback target w = Done ACCEPT w1 ->
  run fuel target script w1 = Done r w' ->
  Forall (feedback_ok (current_battery w) target 5) (published w') /\
  (success r = true ->
   exists p f, published w' = p ++ [f] /\
               current_percentage f = int target /\
               time_remaining f == 0).
Proof.
  intros Hreach Hacc Hrun.
  apply reachable_inv in Hreach. destruct Hreach as (Hr & _).
  apply goal_callback_accept_inv in Hacc. destruct Hacc as (_ & Hb & ->).
  apply run_done_inv in Hrun.
  destruct Hrun as (wk & Hin & _ & _ & -> & _ & _ & _ & Hend).
  set (w0 := loop_entry _) in Hin.
  assert (charge_rate w0 = 5) as Hr0 by exact Hr.
  assert (0 < charge_rate w0) as Hpos by (rewrite Hr0; reflexivity).
  split.
  - pose proof (in_loop_feedback_content _ _ _ _ Hpos eq_refl Hin) as H.
    rewrite Hr0 in H. exact H.
  - intros Hs. destruct Hend as [(_ & Hge & _)|(Hf & _)]; [|congruence].
    pose proof (in_loop_battery_le _ _ _ Hpos _ (Qlt_le_weak _ _ Hb) Hin)
      as Hle.
    pose proof (in_loop_rate _ _ _ _ Hin) as Hrk. rewrite Hr0 in Hrk.
    destruct (in_loop_last_message _ _ _ _ Hin) as [->|[p Hp]].
    + exfalso. cbn in Hge. lra.
    + eexists. eexists. split; [exact Hp|].
      cbn [current_percentage time_remaining]. split.
      * apply int_proper. lra.
      * rewrite Hrk. field_simplify_eq. lra.
Qed.

Lemma feedback_contents_witness :
  exists r w',
    run 32 100 [] accepted_100 = Done r w' /\
    Forall (feedback_ok 20 100 5) (published w') /\
    exists p f, published w' = p ++ [f] /\
                current_percentage f = int 100 /\
                time_remaining f == 0.
Proof.
  destruct full_charge_run as (r & w' & Hrun & Hs & _).
  exists r, w'. split; [exact Hrun|].
  destruct (feedback_contents
              (BatteryCharger_init 0) 100 accepted_100 [] 32 r w')
    as [H1 H2].
  - apply reach_init.
  - reflexivity.
  - exact Hrun.
  - split; [exact H1|exact (H2 Hs)].
Defined.

(** X11.  If [charge_rate] were 0 (the constructor never sets it so), the
    first tick that is not cancelled would raise [ZeroDivisionError] at the
    division computing the remaining time: the level has been reassigned to
    an equal value, nothing has been published and no terminal call has
    been made on the goal handle. *)
Theorem zero_rate_raises
        (fuel : nat) (target : Q) (script : list bool) (w : World) :
  charge_rate w == 0 ->
  current_battery w < target ->
  hd false script = false ->
  exists w',
    run (S fuel) target script w = Raised ZeroDivisionError w' /\
    current_battery w' == current_battery w /\
    published w' = [] /\
    status w' = EXECUTING.
Proof.
  intros Hr Hb Hc. unfold run. rewrite execute_callback_unfold.
  set (w0 := loop_entry (new_goal_handle script w)).
  assert (Qltb (current_battery w0) target = true) as Hg
    by (apply Qltb_true; exact Hb).
  cbn [charging_loop]. rewrite Hg.
  rewrite (loop_body_raises target _ w0 Hc (Qeq_eq_bool _ _ Hr)).
  eexists. split; [reflexivity|]. split; [|split; reflexivity].
  cbn [set_current_battery current_battery]. unfold charged.
  change (charge_rate w0) with (charge_rate w).
  change (current_battery w0) with (current_battery w).
  destruct (Q.min_spec (current_battery w + charge_rate w * (1 # 2)) target)
    as [[_ ->]|[Hle _]]; [rewrite Hr; ring|].
  exfalso. rewrite Hr in Hle. lra.
Qed.

Lemma zero_rate_raises_witness :
  exists w',
    run 1 100 [] rate_0_world = Raised ZeroDivisionError w' /\
    current_battery w' == current_battery rate_0_world /\
    published w' = [] /\
    status w' = EXECUTING.
Proof.
  apply (zero_rate_raises 0 100 [] rate_0_world); reflexivity.
Defined.

(** ** The logger is write-only *)

Lemma loop_body_sim (target start_time : Q) (w1 w2 : World) :
  same_but_logger w1 w2 ->
  outcome_sim (loop_body target start_time w1)
              (loop_body target start_time w2).
Proof.
  intros H. unfold same_but_logger in H.
  set (l := logger w2) in H. clearbody l. subst w2.
  destruct (hd false (cancel_script w1)) eqn:Hc.
  - rewrite !loop_body_cancelled by exact Hc.
    constructor. reflexivity.
  - destruct (Qeq_bool (charge_rate w1) 0) eqn:Hr.
    + rewrite !loop_body_raises by assumption. constructor. reflexivity.
    + rewrite !loop_body_tick by assumption. constructor. reflexivity.
Qed.

Lemma charging_loop_sim (target start_time : Q) :
  forall fuel w1 w2,
    same_but_logger w1 w2 ->
    outcome_sim (charging_loop fuel target start_time w1)
                (charging_loop fuel target start_time w2).
Proof.
  induction fuel as [|fuel IH]; intros w1 w2 H; cbn [charging_loop];
    assert (current_battery w2 = current_battery w1) as ->
      by (rewrite H; reflexivity);
    destruct (Qltb (current_battery w1) target);
    try (constructor; exact H).
  destruct (loop_body_sim target start_time w1 w2 H)
    as [[r|] w1' w2' H'|e w1' w2' H'|]; try (constructor; exact H').
  apply IH. exact H'.
Qed.

Lemma run_sim (fuel : nat) (target : Q) (script : list bool)
      (w1 w2 : World) :
  same_but_logger w1 w2 ->
  outcome_sim (run fuel target script w1) (run fuel target script w2).
Proof.
  intros H. unfold run. rewrite !execute_callback_unfold.
  assert (clock (new_goal_handle script w2) =
          clock (new_goal_handle script w1)) as ->
    by (rewrite H; reflexivity).
  assert (same_but_logger (loop_entry (new_goal_handle script w1))
                          (loop_entry (new_goal_handle script w2))) as H0
    by (rewrite H; reflexivity).
  destruct (charging_loop_sim target (clock (new_goal_handle script w1))
              fuel _ _ H0) as [[r|] w1' w2' H'|e w1' w2' H'|];
    try (constructor; exact H').
  cbn zeta.
  assert (current_battery w2' = current_battery w1') as ->
    by (rewrite H'; reflexivity).
  assert (clock w2' = clock w1') as -> by (rewrite H'; reflexivity).
  constructor. rewrite H'. reflexivity.
Qed.

(** X12.  [cancel_callback] accepts every cancel request and only writes to
    the logger, which no callback reads: accepting the request changes
    neither the decision on any later goal nor the result, the level or the
    feedback of any execution.  Only the goal handle's flag stops a
    charge. *)
Theorem cancel_callback_is_inert (w : World) :
  exists wc,
    cancel_callback w = Done CANCEL_ACCEPT wc /\
    same_but_logger w wc /\
    (forall target resp w1,
       goal_callback target w = Done resp w1 ->
       exists w2, goal_callback target wc = Done resp w2 /\
                  same_but_logger w1 w2) /\
    (forall fuel target script,
       outcome_sim (run fuel target script w) (run fuel target script wc)).
Proof.
  eexists. split; [reflexivity|].
  match goal with |- same_but_logger w ?x /\ _ => set (wc := x) end.
  assert (same_but_logger w wc) as H by reflexivity.
  split; [exact H|]. split.
  - intros target resp w1 Hg.
    assert (current_battery wc = current_battery w) as Hb by reflexivity.
    destruct (goal_callback_cases target w)
      as [[[H1|H1] E1]|[(Ht1 & Hb1 & E1)|(Ht1 & Hb1 & E1)]];
      destruct (goal_callback_cases target wc)
        as [[[H2|H2] E2]|[(Ht2 & Hb2 & E2)|(Ht2 & Hb2 & E2)]];
      try rewrite Hb in Hb2; try (exfalso; lra);
      rewrite E1 in Hg; inversion Hg; subst;
      rewrite E2; eexists; (split; [reflexivity|]); reflexivity.
  - intros fuel target script. apply run_sim. exact H.
Qed.

Lemma cancel_callback_is_inert_witness :
  exists wc,
    cancel_callback accepted_100 = Done CANCEL_ACCEPT wc /\
    exists w2, goal_callback 100 wc = Done ACCEPT w2.
Proof.
  destruct (cancel_callback_is_inert accepted_100) as (wc & Hc & _ & Hg & _).
  exists wc. split; [exact Hc|].
  destruct (Hg 100 ACCEPT
              (logged [Info_request_received 100; Info_goal_accepted]
                      accepted_100) eq_refl) as (w2 & H2 & _).
  exists w2. exact H2.
Defined.
